(** * mesh-heightmap: chunked streaming, bounding box and surface sampling

    A shallow embedding of [lib/large_model_handler.py],
    [lib/point_sampler.py] and the argument validation of [main.py].

    Python integers are [Z].  The [float64] coordinates of a mesh are read
    as real numbers ([R]), extended with the two infinities that
    [calculate_bounding_box] starts from: the bounding box only takes
    minima and maxima, which do not round.  The [float32] values of device
    tensors are an abstract type with abstract operations, so that
    nothing proved here depends on how they round.  Exceptions are values
    of [PyError]; effectful code (logging, random draws, device queries,
    submitted tasks) runs in the monad [M], which threads the random
    source and an event trace. *)

From Stdlib Require Import String ZArith List Bool Lia Permutation.
From Stdlib Require Import Reals Lra.
Import ListNotations.

Local Open Scope Z_scope.

(** ** Python results *)

Inductive PyError : Type :=
| ZeroDivisionError
| ValueError (msg : string)
| AttributeError
| IndexError
| UnboundLocalError
| RuntimeError.

Inductive PyResult (A : Type) : Type :=
| Ok (a : A)
| Raise (e : PyError).

Arguments Ok {A} a.
Arguments Raise {A} e.

Definition rbind {A B} (r : PyResult A) (k : A -> PyResult B) : PyResult B :=
  match r with
  | Ok a => k a
  | Raise e => Raise e
  end.

Fixpoint rmapM {A B} (f : A -> PyResult B) (xs : list A) : PyResult (list B) :=
  match xs with
  | [] => Ok []
  | x :: xs' =>
      rbind (f x) (fun y => rbind (rmapM f xs') (fun ys => Ok (y :: ys)))
  end.

(** ** Python built-ins used by the source *)

Module Py.

(** [len(xs)] *)
Definition len {A} (xs : list A) : Z := Z.of_nat (length xs).

(** [a // b] and [a % b] on ints: floor division, [ZeroDivisionError]
    on a zero divisor. *)
Definition floordiv (a b : Z) : PyResult Z :=
  if b =? 0 then Raise ZeroDivisionError else Ok (a / b).

Definition mod_ (a b : Z) : PyResult Z :=
  if b =? 0 then Raise ZeroDivisionError else Ok (a mod b).

(** Number of elements of [range(start, stop, step)], as CPython's
    [compute_range_length] has it. *)
Definition range_length (start stop step : Z) : Z :=
  if 0 <? step then
    if start <? stop then 1 + (stop - 1 - start) / step else 0
  else
    if stop <? start then 1 + (start - 1 - stop) / (- step) else 0.

(** [range(start, stop, step)]; a zero step is a [ValueError]. *)
Definition range (start stop step : Z) : PyResult (list Z) :=
  if step =? 0 then Raise (ValueError "range() arg 3 must not be zero")
  else Ok (map (fun k => start + Z.of_nat k * step)
               (seq 0 (Z.to_nat (range_length start stop step)))).

(** One bound of a slice: negative bounds count from the end, and the
    result is clamped to [0, len]. *)
Definition clamp_index (n i : Z) : Z :=
  let i' := if i <? 0 then i + n else i in
  if i' <? 0 then 0 else if n <? i' then n else i'.

(** [xs[i:j]] *)
Definition slice {A} (xs : list A) (i j : Z) : list A :=
  let n := len xs in
  let lo := clamp_index n i in
  let hi := clamp_index n j in
  firstn (Z.to_nat (hi - lo)) (skipn (Z.to_nat lo) xs).

End Py.

(** ** Data model *)

Definition Vertex : Type := (R * R * R)%type.
Definition Point : Type := (R * R * R)%type.
Definition Face : Type := (nat * nat * nat)%type.

(** What the source reads of a [trimesh.Trimesh]. *)
Record Trimesh : Type := mkTrimesh {
  vertices : list Vertex;
  faces : list Face
}.

(** The attributes of [LargeModelHandler] that the methods below read. *)
Record LargeModelHandler : Type := mkHandler {
  chunk_size : Z;
  concatenated_mesh : option Trimesh;
  total_vertices : Z;
  total_faces : Z
}.

(** [__init__] *)
Definition init (chunk_size : Z) : LargeModelHandler :=
  {| chunk_size := chunk_size;
     concatenated_mesh := None;
     total_vertices := 0;
     total_faces := 0 |}.

(** [load_model_info], single-mesh branch: [temp_load] is the mesh that
    [trimesh.load] returned. *)
Definition load_model_info (self : LargeModelHandler) (temp_load : Trimesh)
  : LargeModelHandler :=
  {| chunk_size := chunk_size self;
     concatenated_mesh := Some temp_load;
     total_vertices := Py.len (vertices temp_load);
     total_faces := Py.len (faces temp_load) |}.

(** A handler as [main] builds it: constructed, then loaded. *)
Definition loaded (m : Trimesh) (cs : Z) : LargeModelHandler :=
  load_model_info (init cs) m.

(** Reading [self.concatenated_mesh.vertices] and [.faces]: [None] has no
    such attribute. *)
Definition mesh_vertices (self : LargeModelHandler) : PyResult (list Vertex) :=
  match concatenated_mesh self with
  | Some m => Ok (vertices m)
  | None => Raise AttributeError
  end.

Definition mesh_faces (self : LargeModelHandler) : PyResult (list Face) :=
  match concatenated_mesh self with
  | Some m => Ok (faces m)
  | None => Raise AttributeError
  end.

(** ** ChunkStreamer *)

(** The generator body shared by [stream_vertices] and [stream_faces]:
    [for i in range(0, total, chunk_size): yield buf[i : i + chunk_size]].
    The buffer is read once per yielded chunk. *)
Definition stream_chunks {A} (total cs : Z) (buf : PyResult (list A))
  : PyResult (list (list A)) :=
  rbind (Py.range 0 total cs) (fun idx =>
    rmapM (fun i => rbind buf (fun xs => Ok (Py.slice xs i (i + cs)))) idx).

Definition stream_vertices (self : LargeModelHandler)
  : PyResult (list (list Vertex)) :=
  stream_chunks (total_vertices self) (chunk_size self) (mesh_vertices self).

Definition stream_faces (self : LargeModelHandler)
  : PyResult (list (list Face)) :=
  stream_chunks (total_faces self) (chunk_size self) (mesh_faces self).

(** [ceil(n / d)] on integers. *)
Definition ceil_div (n d : Z) : Z := (n + d - 1) / d.

(** Chunks cut structurally, [cs] elements at a time; the streamed chunks
    are compared with these. *)
Fixpoint cut {A} (fuel : nat) (cs : nat) (xs : list A) : list (list A) :=
  match fuel with
  | O => []
  | S fuel' => firstn cs xs :: cut fuel' cs (skipn cs xs)
  end.

(** ** BoundingBoxAccumulator *)

(** A float that may be one of the infinities [np.inf], [-np.inf]. *)
Inductive xreal : Type :=
| NegInf
| Fin (r : R)
| PosInf.

Definition xvec3 : Type := (xreal * xreal * xreal)%type.

(** [np.minimum] and [np.maximum] on one component. *)
Definition xmin (a b : xreal) : xreal :=
  match a, b with
  | NegInf, _ | _, NegInf => NegInf
  | PosInf, x | x, PosInf => x
  | Fin x, Fin y => Fin (Rmin x y)
  end.

Definition xmax (a b : xreal) : xreal :=
  match a, b with
  | PosInf, _ | _, PosInf => PosInf
  | NegInf, x | x, NegInf => x
  | Fin x, Fin y => Fin (Rmax x y)
  end.

Definition xle (a b : xreal) : Prop :=
  match a, b with
  | NegInf, _ | _, PosInf => True
  | Fin x, Fin y => (x <= y)%R
  | _, _ => False
  end.

Definition zip3 {X Y W} (f : X -> Y -> W) (a : X * X * X) (b : Y * Y * Y)
  : W * W * W :=
  let '(a0, a1, a2) := a in
  let '(b0, b1, b2) := b in
  (f a0 b0, f a1 b1, f a2 b2).

Definition fin3 (v : Vertex) : xvec3 :=
  let '(x, y, z) := v in (Fin x, Fin y, Fin z).

Definition np_minimum : xvec3 -> xvec3 -> xvec3 := zip3 xmin.
Definition np_maximum : xvec3 -> xvec3 -> xvec3 := zip3 xmax.

(** [np.min(chunk, axis=0)] and [np.max(chunk, axis=0)]: the columnwise
    reduction of the rows, which has no identity on an empty array. *)
Definition np_min_axis0 (chunk : list Vertex) : PyResult Vertex :=
  match chunk with
  | [] => Raise (ValueError "zero-size array to reduction operation minimum which has no identity")
  | v :: vs => Ok (fold_left (zip3 Rmin) vs v)
  end.

Definition np_max_axis0 (chunk : list Vertex) : PyResult Vertex :=
  match chunk with
  | [] => Raise (ValueError "zero-size array to reduction operation maximum which has no identity")
  | v :: vs => Ok (fold_left (zip3 Rmax) vs v)
  end.

Definition inf3 : xvec3 := (PosInf, PosInf, PosInf).
Definition neg_inf3 : xvec3 := (NegInf, NegInf, NegInf).

(** The loop of [calculate_bounding_box] over the streamed chunks. *)
Fixpoint bounding_box_loop (chunks : list (list Vertex))
  (min_coords max_coords : xvec3) : PyResult (xvec3 * xvec3) :=
  match chunks with
  | [] => Ok (min_coords, max_coords)
  | chunk :: rest =>
      rbind (np_min_axis0 chunk) (fun lo =>
      rbind (np_max_axis0 chunk) (fun hi =>
        bounding_box_loop rest
          (np_minimum min_coords (fin3 lo))
          (np_maximum max_coords (fin3 hi))))
  end.

Definition calculate_bounding_box (self : LargeModelHandler)
  : PyResult (xvec3 * xvec3) :=
  rbind (stream_vertices self) (fun chunks =>
    bounding_box_loop chunks inf3 neg_inf3).

(** The extrema taken one vertex at a time over the whole buffer. *)
Definition extend_box (box : xvec3 * xvec3) (v : Vertex) : xvec3 * xvec3 :=
  (np_minimum (fst box) (fin3 v), np_maximum (snd box) (fin3 v)).

Definition box_of (vs : list Vertex) : xvec3 * xvec3 :=
  fold_left extend_box vs (inf3, neg_inf3).

(** [p] lies between the two corners, componentwise. *)
Definition in_box (box : xvec3 * xvec3) (p : Point) : Prop :=
  let '(l0, l1, l2) := fst box in
  let '(h0, h1, h2) := snd box in
  let '(x, y, z) := p in
  (xle l0 (Fin x) /\ xle (Fin x) h0) /\
  (xle l1 (Fin y) /\ xle (Fin y) h1) /\
  (xle l2 (Fin z) /\ xle (Fin z) h2).
(** ** Well-formed meshes *)

(** The invariant of the data model that the engine trusts: every index
    of a face is within the vertex buffer. *)
Definition valid_face {A} (V : list A) (f : Face) : Prop :=
  let '(i0, i1, i2) := f in
  (i0 < length V)%nat /\ (i1 < length V)%nat /\ (i2 < length V)%nat.

Definition valid_mesh (m : Trimesh) : Prop :=
  Forall (valid_face (vertices m)) (faces m).

(** ** External collaborators

    The random source, the library calls that draw from it and the
    arithmetic of device tensors are not code of this repository:
    [trimesh.sample.sample_surface_even], [Trimesh.sample],
    [torch.multinomial], [torch.rand], the [float32] kernels of torch, and
    the order in which [concurrent.futures.as_completed] hands back
    finished futures.  They are taken as an interface.

    [sample_surface_even] returns the pair [(points, face_index)] and may
    return fewer points than asked for; nothing is assumed of it.
    [torch.multinomial] raises on probabilities it does not accept, so its
    result is a [PyResult].  The values of [float32] tensors are an
    abstract type [f32]: no rounding, overflow or NaN behaviour is assumed
    of its operations. *)

Class Externals : Type := {
  Rng : Type;
  sample_surface_even : Trimesh -> Z -> Rng -> (list Point * list nat) * Rng;
  mesh_sample : Trimesh -> Z -> Rng -> list Point * Rng;
  f32 : Type;
  as_f32 : R -> f32;
  f32_add : f32 -> f32 -> f32;
  f32_sub : f32 -> f32 -> f32;
  f32_mul : f32 -> f32 -> f32;
  f32_div : f32 -> f32 -> f32;
  f32_sqrt : f32 -> f32;
  f32_sum : list f32 -> f32;
  cross3 : f32 * f32 * f32 -> f32 * f32 * f32 -> f32 * f32 * f32;
  norm3 : f32 * f32 * f32 -> f32;
  torch_multinomial : list f32 -> Z -> Rng -> PyResult (list nat) * Rng;
  torch_rand : Z -> Rng -> list f32 * Rng;
  as_completed : list (list Point) -> list (list Point)
}.

(** What the samplers rely on: [Trimesh.sample] returns as many points
    as asked for on a well-formed mesh with faces; when
    [torch.multinomial] returns, it returns the asked number of indices,
    each a position of the probability vector; [torch.rand] returns the
    asked number of draws; [as_completed] yields every future once. *)
Class ExternalsSpec (E : Externals) : Prop := {
  mesh_sample_len : forall m n g,
    valid_mesh m -> faces m <> [] -> 0 <= n ->
    Py.len (fst (mesh_sample m n g)) = n;
  torch_multinomial_ok : forall probs n g idx,
    fst (torch_multinomial probs n g) = Ok idx ->
    Py.len idx = n /\ Forall (fun i => (i < length probs)%nat) idx;
  torch_rand_len : forall n g,
    0 <= n -> Py.len (fst (torch_rand n g)) = n;
  as_completed_perm : forall futures,
    Permutation (as_completed futures) futures
}.

(** ** Events and the effect monad *)

Inductive Level : Type := INFO | WARNING.

Section Events.

Context {E : Externals}.

Inductive Event : Type :=
| Log (lvl : Level) (msg : string)
| CudaIsAvailable (answer : bool)
| SampleSurfaceEven (mesh : Trimesh) (count : Z)
| Submit (count : Z)
| MeshSample (mesh : Trimesh) (count : Z)
| GpuSessionEnter
| GpuSessionExit
| AllocateGpuTensor (elements : Z)
| Multinomial (probs : list f32) (count : Z)
| Rand (count : Z).

Definition is_cuda_query (ev : Event) : bool :=
  match ev with CudaIsAvailable _ => true | _ => false end.

Definition is_warning (ev : Event) : bool :=
  match ev with Log WARNING _ => true | _ => false end.

Definition is_info (ev : Event) : bool :=
  match ev with Log INFO _ => true | _ => false end.

Definition is_submit (ev : Event) : bool :=
  match ev with Submit _ => true | _ => false end.

(** Events of the CPU samplers' drawing primitives. *)
Definition is_cpu_draw (ev : Event) : bool :=
  match ev with
  | SampleSurfaceEven _ _ | MeshSample _ _ | Submit _ => true
  | _ => false
  end.

(** Events issued against the device. *)
Definition is_device_op (ev : Event) : bool :=
  match ev with
  | GpuSessionEnter | GpuSessionExit | AllocateGpuTensor _
  | Multinomial _ _ | Rand _ => true
  | _ => false
  end.

End Events.

Section Effects.

Context {E : Externals}.

(** The state a call runs in: the random source, whether a CUDA device
    is present, and the events so far, oldest first. *)
Record World : Type := mkWorld {
  rng : Rng;
  cuda : bool;
  trace : list Event
}.

Definition M (A : Type) : Type := World -> PyResult A * World.

Definition ret {A} (a : A) : M A := fun w => (Ok a, w).

Definition bind {A B} (m : M A) (k : A -> M B) : M B :=
  fun w =>
    match m w with
    | (Ok a, w') => k a w'
    | (Raise e, w') => (Raise e, w')
    end.

Definition lift {A} (r : PyResult A) : M A := fun w => (r, w).

Definition emit (ev : Event) : M unit :=
  fun w => (Ok tt, {| rng := rng w; cuda := cuda w; trace := trace w ++ [ev] |}).

(** A draw from the random source, recorded as [ev]. *)
Definition draw {A} (ev : Event) (f : Rng -> A * Rng) : M A :=
  fun w =>
    let '(a, g) := f (rng w) in
    (Ok a, {| rng := g; cuda := cuda w; trace := trace w ++ [ev] |}).

(** A draw that the library may refuse: the call is recorded as [ev]
    and its exception, if any, propagates. *)
Definition try_draw {A} (ev : Event) (f : Rng -> PyResult A * Rng) : M A :=
  fun w =>
    let '(r, g) := f (rng w) in
    (r, {| rng := g; cuda := cuda w; trace := trace w ++ [ev] |}).

Fixpoint mapM {A B} (f : A -> M B) (xs : list A) : M (list B) :=
  match xs with
  | [] => ret []
  | x :: xs' =>
      bind (f x) (fun y => bind (mapM f xs') (fun ys => ret (y :: ys)))
  end.

Fixpoint foldM {A S} (f : S -> A -> M S) (xs : list A) (s : S) : M S :=
  match xs with
  | [] => ret s
  | x :: xs' => bind (f s x) (foldM f xs')
  end.

End Effects.

Declare Scope py_scope.
Delimit Scope py_scope with py.
Notation "x <- m ;; k" := (bind m (fun x => k))
  (at level 61, m at next level, right associativity) : py_scope.
Notation "m ;;; k" := (bind m (fun _ => k))
  (at level 61, right associativity) : py_scope.

(** [np.vstack] on a list of arrays of rows. *)
Definition vstack {A} (arrays : list (list A)) : PyResult (list A) :=
  match arrays with
  | [] => Raise (ValueError "need at least one array to concatenate")
  | _ :: _ => Ok (concat arrays)
  end.

(** ** Samplers *)

Section Samplers.

Context {E : Externals}.
Local Open Scope py_scope.

(** A row of a [float32] tensor of shape [(n, 3)]. *)
Definition vec3 : Type := (f32 * f32 * f32)%type.

(** The array a sampling pass returns: [float64] rows from trimesh, or
    [float32] rows copied back from the device. *)
Inductive SampleSet : Type :=
| Float64Points (rows : list Point)
| Float32Points (rows : list vec3).

(** [len(result)] *)
Definition num_points (s : SampleSet) : Z :=
  match s with
  | Float64Points rows => Py.len rows
  | Float32Points rows => Py.len rows
  end.

(** [logging.info] / [logging.warning]; a message is kept as its
    template, without the interpolated numbers. *)
Definition logging (lvl : Level) (msg : string) : M unit :=
  emit (Log lvl msg).

(** [torch.cuda.is_available()] *)
Definition cuda_is_available : M bool :=
  fun w =>
    (Ok (cuda w),
     {| rng := rng w; cuda := cuda w;
        trace := trace w ++ [CudaIsAvailable (cuda w)] |}).

(** [trimesh.sample.sample_surface_even(mesh, count)]: the
    [(points, face_index)] pair, as the library returns it. *)
Definition trimesh_sample_surface_even (m : Trimesh) (count : Z)
  : M (list Point * list nat) :=
  draw (SampleSurfaceEven m count) (sample_surface_even m count).

(** [torch.multinomial(probs, count, replacement=True)] *)
Definition multinomial (probs : list f32) (count : Z) : M (list nat) :=
  try_draw (Multinomial probs count) (torch_multinomial probs count).

(** [torch.rand(count, device="cuda")] *)
Definition rand (count : Z) : M (list f32) :=
  draw (Rand count) (torch_rand count).

(** [np.vstack(samples)] on the list that [_sample_points_cpu] builds.
    Every element is a [(points, face_index)] pair, of shapes [(k, 3)]
    and [(k,)]; [np.vstack] first makes an array of each element, and
    such a pair is ragged, so a non-empty list is refused like an empty
    one. *)
Definition np_vstack_pairs (samples : list (list Point * list nat))
  : PyResult SampleSet :=
  match samples with
  | [] => Raise (ValueError "need at least one array to concatenate")
  | _ :: _ =>
      Raise (ValueError "setting an array element with a sequence. The requested array has an inhomogeneous shape after 1 dimensions.")
  end.

(** Modelled from the spec: [resource_manager.allocate_gpu_tensor] of the
    absent [lib/resource_manager.py], the device-memory allocation
    primitive parameterized by element type: the data, converted by
    [dtype] and now resident on the device. *)
Definition allocate_gpu_tensor {A B} (data : list A) (dtype : A -> B)
  : M (list B) :=
  emit (AllocateGpuTensor (Py.len data)) ;;; ret (map dtype data).

(** Modelled from the spec: [resource_manager.gpu_session] of the absent
    [lib/resource_manager.py], a scoped session released on every exit
    path. *)
Definition gpu_session {A} (body : M A) : M A :=
  fun w =>
    match emit GpuSessionEnter w with
    | (_, w1) =>
        match body w1 with
        | (r, w2) => (r, snd (emit GpuSessionExit w2))
        end
    end.

(** *** Tensor arithmetic of the GPU paths *)

(** [dtype=torch.float32] on a row of coordinates, [dtype=torch.long] on
    a row of indices. *)
Definition float32 (v : Vertex) : vec3 :=
  let '(x, y, z) := v in (as_f32 x, as_f32 y, as_f32 z).

Definition long (f : Face) : Face := f.

(** [xs[i]] for a non-negative index. *)
Definition index {A} (xs : list A) (i : nat) : PyResult A :=
  match nth_error xs i with
  | Some a => Ok a
  | None => Raise IndexError
  end.

(** [vertices[faces[:, 0]]], [vertices[faces[:, 1]]],
    [vertices[faces[:, 2]]] for one face. *)
Definition corners (V : list Vertex) (f : Face)
  : PyResult (Vertex * Vertex * Vertex) :=
  let '(i0, i1, i2) := f in
  rbind (index V i0) (fun v0 =>
  rbind (index V i1) (fun v1 =>
  rbind (index V i2) (fun v2 => Ok (v0, v1, v2)))).

(** [xs[idx]] on a device tensor, for a tensor of indices; an index past
    the end is a device-side assertion. *)
Definition gather {A} (xs : list A) (idx : list nat) : PyResult (list A) :=
  rmapM (fun i => match nth_error xs i with
                  | Some a => Ok a
                  | None => Raise RuntimeError
                  end) idx.

(** [faces[:, k]] *)
Definition column (k : nat) (F : list Face) : list nat :=
  map (fun f : Face =>
         let '(i0, i1, i2) := f in
         match k with O => i0 | S O => i1 | _ => i2 end) F.

(** Elementwise operation on two tensors with the same number of rows. *)
Definition rows2 {X Y W} (f : X -> Y -> W) (xs : list X) (ys : list Y)
  : list W :=
  map (fun p => f (fst p) (snd p)) (combine xs ys).

Definition transpose3 {X} (m : (X * X * X) * (X * X * X) * (X * X * X))
  : (X * X * X) * (X * X * X) * (X * X * X) :=
  let '((a00, a01, a02), (a10, a11, a12), (a20, a21, a22)) := m in
  ((a00, a10, a20), (a01, a11, a21), (a02, a12, a22)).

(** [torch.cross(a, b)] without [dim], on two tensors of shape [(n, 3)]:
    the product is taken along the first dimension of size 3.  That is
    the rows, except for [n = 3], where it is dimension 0: each column
    of [a] is crossed with the same column of [b]. *)
Definition torch_cross (a b : list vec3) : list vec3 :=
  match a, b with
  | [a0; a1; a2], [b0; b1; b2] =>
      let '(x, y, z) := transpose3 (a0, a1, a2) in
      let '(x', y', z') := transpose3 (b0, b1, b2) in
      let '(r0, r1, r2) := transpose3 (cross3 x x', cross3 y y', cross3 z z') in
      [r0; r1; r2]
  | _, _ => rows2 cross3 a b
  end.

(** [0.5 * torch.norm(torch.cross(v1 - v0, v2 - v0), dim=1)], with
    [v0, v1, v2 = vertices[faces[:, 0]], vertices[faces[:, 1]],
    vertices[faces[:, 2]]]. *)
Definition face_areas (V : list vec3) (F : list Face) : PyResult (list f32) :=
  rbind (gather V (column 0 F)) (fun v0 =>
  rbind (gather V (column 1 F)) (fun v1 =>
  rbind (gather V (column 2 F)) (fun v2 =>
    Ok (map (fun c => f32_mul (as_f32 0.5) (norm3 c))
          (torch_cross (rows2 (zip3 f32_sub) v1 v0)
                       (rows2 (zip3 f32_sub) v2 v0)))))).

(** [face_areas / torch.sum(face_areas)] *)
Definition normalize (areas : list f32) : list f32 :=
  map (fun a => f32_div a (f32_sum areas)) areas.

(** The [face_probs] of a batch of faces, as both GPU passes compute
    them. *)
Definition face_probs_of (V : list vec3) (F : list Face) : PyResult (list f32) :=
  rbind (face_areas V F) (fun areas => Ok (normalize areas)).

(** Broadcasting along the leading dimension: equal sizes go row by
    row, a size of 1 is repeated, anything else is refused. *)
Definition broadcast {X Y W} (f : X -> Y -> W) (xs : list X) (ys : list Y)
  : PyResult (list W) :=
  match xs, ys with
  | [x], _ => Ok (map (f x) ys)
  | _, [y] => Ok (map (fun x => f x y) xs)
  | _, _ =>
      if (length xs =? length ys)%nat then Ok (rows2 f xs ys)
      else Raise RuntimeError
  end.

(** [k.unsqueeze(1) * row] *)
Definition scale (k : f32) (v : vec3) : vec3 :=
  let '(x, y, z) := v in (f32_mul k x, f32_mul k y, f32_mul k z).

(** The sampled points of one batch,
    [(1 - r1) * vertices[faces[idx, 0]] + (r1 * (1 - r2)) * vertices[faces[idx, 1]]
     + (r1 * r2) * vertices[faces[idx, 2]]],
    where [r1] is already the square root of its draw. *)
Definition sample_on_faces (V : list vec3) (F : list Face)
  (idx : list nat) (r1 r2 : list f32) : PyResult (list vec3) :=
  let one := as_f32 1 in
  rbind (gather F idx) (fun sampled_faces =>
  rbind (gather V (column 0 sampled_faces)) (fun p0 =>
  rbind (gather V (column 1 sampled_faces)) (fun p1 =>
  rbind (gather V (column 2 sampled_faces)) (fun p2 =>
  rbind (broadcast scale (map (f32_sub one) r1) p0) (fun t0 =>
  rbind (broadcast f32_mul r1 (map (f32_sub one) r2)) (fun v =>
  rbind (broadcast scale v p1) (fun t1 =>
  rbind (broadcast f32_mul r1 r2) (fun w =>
  rbind (broadcast scale w p2) (fun t2 =>
  rbind (broadcast (zip3 f32_add) t0 t1) (fun s =>
  broadcast (zip3 f32_add) s t2)))))))))).

(** *** [LargeModelHandler] *)

Definition mesh_of (self : LargeModelHandler) : PyResult Trimesh :=
  match concatenated_mesh self with
  | Some m => Ok m
  | None => Raise AttributeError
  end.

(** [chunk_samples] and [extra_samples] are appended as the library
    returned them, and the list goes to [np.vstack]. *)
Definition _sample_points_cpu (self : LargeModelHandler) (num_samples : Z)
  : M SampleSet :=
  samples_per_face <- lift (Py.floordiv num_samples (total_faces self)) ;;
  remaining_samples <- lift (Py.mod_ num_samples (total_faces self)) ;;
  chunks <- lift (stream_faces self) ;;
  samples <- mapM (fun face_chunk =>
      vs <- lift (mesh_vertices self) ;;
      trimesh_sample_surface_even
        (mkTrimesh vs face_chunk)
        (samples_per_face * Py.len face_chunk)) chunks ;;
  extra <- (if 0 <? remaining_samples then
              m <- lift (mesh_of self) ;;
              extra_samples <- trimesh_sample_surface_even m remaining_samples ;;
              ret [extra_samples]
            else ret []) ;;
  lift (np_vstack_pairs (samples ++ extra)).

(** The names a pass of the GPU loop leaves bound: the batches appended
    so far and, once a chunk was processed, its [faces] and
    [face_probs]. *)
Record GpuLocals : Type := mkGpuLocals {
  samples : list (list vec3);
  last_chunk : option (list Face * list f32)
}.

Definition gpu_chunk (V : list vec3) (samples_per_face : Z)
  (st : GpuLocals) (face_chunk : list Face) : M GpuLocals :=
  faces <- allocate_gpu_tensor face_chunk long ;;
  face_probs <- lift (face_probs_of V faces) ;;
  face_indices <- multinomial face_probs (samples_per_face * Py.len face_chunk) ;;
  r1 <- rand (Py.len face_indices) ;;
  r2 <- rand (Py.len face_indices) ;;
  sample_points <- lift (sample_on_faces V faces face_indices (map f32_sqrt r1) r2) ;;
  ret {| samples := samples st ++ [sample_points];
         last_chunk := Some (faces, face_probs) |}.

Definition gpu_remainder (V : list vec3) (remaining_samples : Z)
  (st : GpuLocals) : M (list (list vec3)) :=
  if 0 <? remaining_samples then
    match last_chunk st with
    | None => lift (Raise UnboundLocalError)
    | Some (faces, face_probs) =>
        extra_indices <- multinomial face_probs remaining_samples ;;
        r1 <- rand remaining_samples ;;
        r2 <- rand remaining_samples ;;
        extra_points <- lift (sample_on_faces V faces extra_indices (map f32_sqrt r1) r2) ;;
        ret (samples st ++ [extra_points])
    end
  else ret (samples st).

Definition _sample_points_gpu (self : LargeModelHandler) (num_samples : Z)
  : M SampleSet :=
  samples_per_face <- lift (Py.floordiv num_samples (total_faces self)) ;;
  remaining_samples <- lift (Py.mod_ num_samples (total_faces self)) ;;
  samples <- gpu_session (
    host_vertices <- lift (mesh_vertices self) ;;
    vertices <- allocate_gpu_tensor host_vertices float32 ;;
    chunks <- lift (stream_faces self) ;;
    st <- foldM (gpu_chunk vertices samples_per_face) chunks
            {| samples := []; last_chunk := None |} ;;
    gpu_remainder vertices remaining_samples st) ;;
  rows <- lift (vstack samples) ;;
  ret (Float32Points rows).

Definition fallback_warning : string :=
  "GPU Acceleration was requested but CUDA is not available. Falling back to CPU processing.".

Definition sample_points (self : LargeModelHandler) (num_samples : Z)
  (use_gpu : bool) : M SampleSet :=
  if negb use_gpu then _sample_points_cpu self num_samples
  else
    available <- (if use_gpu then cuda_is_available else ret false) ;;
    if use_gpu && available then _sample_points_gpu self num_samples
    else
      logging WARNING fallback_warning ;;;
      _sample_points_cpu self num_samples.

End Samplers.

(** *** [PointSampler] *)

Module PointSampler.
Section PointSampler.

Context {E : Externals}.
Local Open Scope py_scope.

Definition _sample_points_on_gpu (mesh : Trimesh) (num_samples : Z)
  : M SampleSet :=
  logging INFO "Sampling points from the 3D model using GPU..." ;;;
  vertices <- ret (map float32 (vertices mesh)) ;;
  faces <- ret (map long (faces mesh)) ;;
  face_probs <- lift (face_probs_of vertices faces) ;;
  face_indices <- multinomial face_probs num_samples ;;
  r1 <- rand num_samples ;;
  r2 <- rand num_samples ;;
  sampled_points <- lift (sample_on_faces vertices faces face_indices (map f32_sqrt r1) r2) ;;
  logging INFO "Sampling complete: points generated." ;;;
  ret (Float32Points sampled_points).

(** [executor.submit(sample_chunk, chunk_size)]: the task is recorded and
    its [mesh.sample(chunk_size)] drawn; the future holds the result. *)
Definition submit (mesh : Trimesh) (chunk_size : Z) : M (list Point) :=
  emit (Submit chunk_size) ;;;
  draw (MeshSample mesh chunk_size) (mesh_sample mesh chunk_size).

(** [ThreadPoolExecutor(max_workers=num_threads)] *)
Definition thread_pool_executor (max_workers : Z) : PyResult unit :=
  if max_workers <=? 0
  then Raise (ValueError "max_workers must be greater than 0")
  else Ok tt.

Definition _sample_points_on_cpu (mesh : Trimesh) (num_samples num_threads : Z)
  : M SampleSet :=
  logging INFO "Sampling points from the 3D model using CPU with threads..." ;;;
  samples_per_thread <- lift (Py.floordiv num_samples num_threads) ;;
  remaining_samples <- lift (Py.mod_ num_samples num_threads) ;;
  lift (thread_pool_executor num_threads) ;;;
  workers <- lift (Py.range 0 num_threads 1) ;;
  futures <- mapM (fun _ => submit mesh samples_per_thread) workers ;;
  extra <- (if 0 <? remaining_samples then
              future <- submit mesh remaining_samples ;;
              ret [future]
            else ret []) ;;
  sampled_points <- lift (vstack (as_completed (futures ++ extra))) ;;
  logging INFO "Sampling complete: points generated." ;;;
  ret (Float64Points sampled_points).

Definition sample_points (mesh : Trimesh) (num_samples : Z) (use_gpu : bool)
  (num_threads : Z) : M SampleSet :=
  available <- (if use_gpu then cuda_is_available else ret false) ;;
  if use_gpu && available
  then _sample_points_on_gpu mesh num_samples
  else _sample_points_on_cpu mesh num_samples num_threads.

End PointSampler.
End PointSampler.

(** ** Command surface: [main.validate_arguments] *)

Module Main.

Record Args : Type := mkArgs {
  max_resolution : Z;
  num_samples : Z;
  num_threads : Z;
  chunk_size : Z
}.

Definition validate_arguments (args : Args) : PyResult unit :=
  if max_resolution args <=? 0 then
    Raise (ValueError "Maximum resolution must be a positive integer.")
  else if num_samples args <=? 0 then
    Raise (ValueError "Number of samples must be a positive integer.")
  else if num_threads args <? 1 then
    Raise (ValueError "Number of threads must be at least 1.")
  else if chunk_size args <=? 0 then
    Raise (ValueError "Chunk size must be a positive integer.")
  else Ok tt.

End Main.

(** ** Traces of the CPU passes *)

Section Traces.

Context {E : Externals}.

(** The number of points an event asks a CPU drawing primitive for. *)
Definition requested (ev : Event) : Z :=
  match ev with
  | SampleSurfaceEven _ count | MeshSample _ count => count
  | _ => 0
  end.

Definition total_requested (evs : list Event) : Z :=
  fold_right (fun ev acc => requested ev + acc) 0 evs.

(** The draws of [_sample_points_cpu] for [n] samples over the streamed
    [chunks]: one per chunk, restricted to the chunk's faces, then the
    remainder over the whole mesh. *)
Definition cpu_events (m : Trimesh) (n : Z) (chunks : list (list Face))
  : list Event :=
  let total := Py.len (faces m) in
  map (fun c => SampleSurfaceEven (mkTrimesh (vertices m) c)
                  (n / total * Py.len c)) chunks
  ++ (if 0 <? n mod total then [SampleSurfaceEven m (n mod total)] else []).

(** The events of [PointSampler._sample_points_on_cpu] for [n] samples on
    [t] threads: every worker's task, the remainder task, and the two log
    lines around them. *)
Definition pool_events (mesh : Trimesh) (n t : Z) : list Event :=
  [Log INFO "Sampling points from the 3D model using CPU with threads..."]
  ++ concat (repeat [Submit (n / t); MeshSample mesh (n / t)] (Z.to_nat t))
  ++ (if 0 <? n mod t
      then [Submit (n mod t); MeshSample mesh (n mod t)] else [])
  ++ [Log INFO "Sampling complete: points generated."].

(** [torch.multinomial] accepts [probs]: asked for a positive number of
    indices, it returns. *)
Definition accepts (probs : list f32) : Prop :=
  forall n g, 0 < n -> exists idx, fst (torch_multinomial probs n g) = Ok idx.



End Traces.

(** ** An instance of the externals with exact arithmetic, and sample inputs *)

Definition origin : Point := (0, 0, 0)%R.

Definition cross (a b : R * R * R) : R * R * R :=
  let '(a0, a1, a2) := a in
  let '(b0, b1, b2) := b in
  (a1 * b2 - a2 * b1, a2 * b0 - a0 * b2, a0 * b1 - a1 * b0)%R.

Definition norm (a : R * R * R) : R :=
  let '(a0, a1, a2) := a in sqrt (a0 * a0 + a1 * a1 + a2 * a2).

(** Every draw is a constant batch of the requested size, tensors hold
    real numbers, [torch.multinomial] accepts every non-empty vector for a
    positive count, and futures complete in reverse order of
    submission. *)
Definition fixed_externals : Externals :=
  {| Rng := unit;
     sample_surface_even := fun _ n g =>
       ((repeat origin (Z.to_nat n), repeat 0%nat (Z.to_nat n)), g);
     mesh_sample := fun _ n g => (repeat origin (Z.to_nat n), g);
     f32 := R;
     as_f32 := fun x => x;
     f32_add := Rplus;
     f32_sub := Rminus;
     f32_mul := Rmult;
     f32_div := Rdiv;
     f32_sqrt := sqrt;
     f32_sum := fold_right Rplus 0%R;
     cross3 := cross;
     norm3 := norm;
     torch_multinomial := fun probs n g =>
       (match probs with
        | [] => Raise RuntimeError
        | _ :: _ =>
            if 0 <? n then Ok (repeat 0%nat (Z.to_nat n)) else Raise RuntimeError
        end, g);
     torch_rand := fun n g => (repeat (1 / 4)%R (Z.to_nat n), g);
     as_completed := @rev (list Point) |}.

(** A unit square cut in two triangles. *)
Definition square : Trimesh :=
  {| vertices := [(0, 0, 0); (1, 0, 0); (1, 1, 0); (0, 1, 0)]%R;
     faces := [(0, 1, 2); (0, 2, 3)]%nat |}.

Definition start (device : bool) : @World fixed_externals :=
  @mkWorld fixed_externals tt device [].

(** [box] is contained in [box']. *)
Definition box_le (box box' : xvec3 * xvec3) : Prop :=
  let '(l0, l1, l2) := fst box in
  let '(h0, h1, h2) := snd box in
  let '(l0', l1', l2') := fst box' in
  let '(h0', h1', h2') := snd box' in
  (xle l0' l0 /\ xle h0 h0') /\
  (xle l1' l1 /\ xle h1 h1') /\
  (xle l2' l2 /\ xle h2 h2').

(** Coordinate [k] of a vertex: 0, 1, 2 for x, y, z. *)
Definition coord (k : nat) (v : Vertex) : R :=
  let '(x, y, z) := v in
  match k with
  | O => x
  | S O => y
  | _ => z
  end.

(** ** Command surface: [main.validate_split] *)

(** What an argparse [type=] callable gives back: the converted value,
    an [argparse.ArgumentTypeError] with its message, or the
    [OverflowError] that escapes from [math.sqrt]. *)
Inductive ArgResult : Type :=
| Accepted (value : Z)
| ArgumentTypeError (msg : string)
| OverflowError.

(** [range(start, stop)] *)
Definition range2 (start stop : Z) : list Z :=
  map (fun k => start + Z.of_nat k) (seq 0 (Z.to_nat (stop - start))).

Section Split.

(** [int(math.sqrt(n))] for a positive int [n]: the library converts
    [n] to a float, which fails with [OverflowError] beyond the float
    range ([None]), and rounds the root. *)
Variable int_math_sqrt : Z -> option Z.

(** [any(ivalue % i == 0 for i in range(2, int(math.sqrt(ivalue)) + 1))] *)
Definition has_small_divisor (ivalue : Z) : option bool :=
  match int_math_sqrt ivalue with
  | Some root =>
      Some (existsb (fun i => ivalue mod i =? 0) (range2 2 (root + 1)))
  | None => None
  end.

(** [validate_split], applied to [ivalue = int(value)].  [math.isqrt]
    is exact; [and] evaluates its second operand only when the first is
    true. *)
Definition validate_split (ivalue : Z) : ArgResult :=
  if ivalue <=? 0 then
    ArgumentTypeError "is an invalid split value. Must be a positive integer."
  else
    let not_square := negb (Z.sqrt ivalue ^ 2 =? ivalue) in
    match (if not_square then option_map negb (has_small_divisor ivalue)
           else Some false) with
    | None => OverflowError
    | Some true =>
        ArgumentTypeError "is an invalid split value. Must be able to form a grid (e.g., 4, 9, 12)."
    | Some false => Accepted ivalue
    end.

End Split.

(** An [int(math.sqrt(n))] that is exact below [2 ^ 52] and overflows
    from there on. *)
Definition exact_root (n : Z) : option Z :=
  if n <? 2 ^ 52 then Some (Z.sqrt n) else None.

(** ** Scenes: [LargeModelHandler._process_scene] *)

(** [faces + total_vertices] on one row of a face array. *)
Definition shift_face (offset : nat) (f : Face) : Face :=
  let '(i0, i1, i2) := f in ((i0 + offset)%nat, (i1 + offset)%nat, (i2 + offset)%nat).

Section Scene.

(** A node transform and [trimesh.transform_points], which are not code
    of this repository. *)
Variable Transform : Type.
Variable transform_points : list Vertex -> Transform -> list Vertex.

(** A geometry node of the scene graph, resolved: its transform and the
    mesh that [scene.geometry] holds under its geometry name. *)
Record SceneNode : Type := mkSceneNode {
  node_transform : Transform;
  node_mesh : Trimesh
}.

(** The names the loop of [_process_scene] updates. *)
Record SceneLocals : Type := mkSceneLocals {
  all_vertices : list (list Vertex);
  all_faces : list (list Face);
  running_total : nat
}.

Definition transformed (nd : SceneNode) : list Vertex :=
  transform_points (vertices (node_mesh nd)) (node_transform nd).

(** One pass of [for node_name in self.scene.graph.nodes_geometry]. *)
Definition process_node (st : SceneLocals) (nd : SceneNode) : SceneLocals :=
  let transformed_vertices := transformed nd in
  {| all_vertices := all_vertices st ++ [transformed_vertices];
     all_faces := all_faces st
       ++ [map (shift_face (running_total st)) (faces (node_mesh nd))];
     running_total := (running_total st + length transformed_vertices)%nat |}.

(** [_process_scene]: the result is the pair of buffers that the method
    hands to [trimesh.Trimesh]. *)
Definition _process_scene (nodes : list SceneNode) : PyResult Trimesh :=
  let st := fold_left process_node nodes
              {| all_vertices := []; all_faces := []; running_total := 0 |} in
  rbind (vstack (all_vertices st)) (fun vertices =>
  rbind (vstack (all_faces st)) (fun faces =>
    Ok {| vertices := vertices; faces := faces |})).

(** The face arrays appended from [nodes] when [offset] vertices precede
    them. *)
Fixpoint shifted_faces (offset : nat) (nodes : list SceneNode)
  : list (list Face) :=
  match nodes with
  | [] => []
  | nd :: rest =>
      map (shift_face offset) (faces (node_mesh nd))
      :: shifted_faces (offset + length (transformed nd)) rest
  end.

End Scene.

Arguments mkSceneNode {Transform} _ _.
Arguments node_transform {Transform} _.
Arguments node_mesh {Transform} _.

(** ** Specifications of runs *)

Section RunSpecs.

Context {E : Externals}.

(** [m] run from [w] returns normally, with a result and final world
    that satisfy [Q]. *)
Definition returns {A} (m : M A) (w : World) (Q : A -> World -> Prop) : Prop :=
  exists a w', m w = (Ok a, w') /\ Q a w'.

(** [m] run from [w] raises, with an exception and final world that
    satisfy [Q]. *)
Definition raises {A} (m : M A) (w : World) (Q : PyError -> World -> Prop)
  : Prop :=
  exists e w', m w = (Raise e, w') /\ Q e w'.

(** Whatever [m] does -- return or raise -- it leaves the device flag
    alone and only adds events that satisfy [P]. *)
Definition emits {A} (P : Event -> bool) (m : M A) : Prop :=
  forall w, exists evs,
    trace (snd (m w)) = trace w ++ evs /\
    forallb P evs = true /\
    cuda (snd (m w)) = cuda w.

(** Whatever [m] does from [w] -- return or raise -- the events it adds
    begin with [evs]. *)
Definition begins {A} (evs : list Event) (m : M A) (w : World) : Prop :=
  exists rest, trace (snd (m w)) = trace w ++ evs ++ rest.

End RunSpecs.

(** ** Properties the theorems are stated with *)

(** [r] is a successful stream of [xs] in chunks of [cs]: the number of
    chunks, the size of every chunk but the last, the size of the last
    one, and the coverage of [xs] in order. *)
Definition covers {A} (xs : list A) (cs : Z) (r : PyResult (list (list A)))
  : Prop :=
  exists chunks,
    r = Ok chunks /\
    Py.len chunks = ceil_div (Py.len xs) cs /\
    (forall k, (S k < length chunks)%nat -> Py.len (nth k chunks []) = cs) /\
    (chunks <> [] -> 0 < Py.len (nth (length chunks - 1) chunks []) <= cs) /\
    concat chunks = xs.

(** ** Lemmas on ranges, slices and chunks *)

Section ChunkLemmas.

Context {A : Type}.

Lemma rmapM_ok {X Y} (f : X -> Y) (xs : list X) :
  rmapM (fun x => Ok (f x)) xs = Ok (map f xs).
Proof.
  induction xs as [|x xs IH]; simpl; [reflexivity|].
  now rewrite IH.
Qed.

Lemma range_length_pos (n cs : Z) :
  0 <= n -> 0 < cs -> Py.range_length 0 n cs = ceil_div n cs.
Proof.
  intros Hn Hcs. unfold Py.range_length, ceil_div.
  destruct (Z.ltb_spec 0 cs) as [_|]; [|lia].
  destruct (Z.ltb_spec 0 n) as [Hpos|Hz].
  - replace (n + cs - 1) with ((n - 1 - 0) + 1 * cs) by lia.
    rewrite Z.div_add by lia. lia.
  - assert (n = 0) by lia. subst n.
    replace (0 + cs - 1) with (cs - 1) by lia.
    symmetry. apply Z.div_small. lia.
Qed.

Lemma ceil_div_bounds (n cs : Z) :
  0 <= n -> 0 < cs ->
  0 <= ceil_div n cs /\ n <= ceil_div n cs * cs < n + cs.
Proof.
  intros Hn Hcs. unfold ceil_div.
  pose proof (Z.div_mod (n + cs - 1) cs ltac:(lia)) as E.
  pose proof (Z.mod_pos_bound (n + cs - 1) cs Hcs) as B.
  assert (0 <= (n + cs - 1) / cs) by (apply Z.div_pos; lia).
  nia.
Qed.

Lemma slice_chunk (xs : list A) (k : nat) (cs : Z) :
  0 < cs ->
  Z.of_nat k * cs < Py.len xs ->
  Py.slice xs (0 + Z.of_nat k * cs) (0 + Z.of_nat k * cs + cs)
  = firstn (Z.to_nat cs) (skipn (k * Z.to_nat cs) xs).
Proof.
  intros Hcs Hlt. unfold Py.slice, Py.clamp_index, Py.len in *.
  set (n := Z.of_nat (length xs)) in *.
  set (i := 0 + Z.of_nat k * cs).
  assert (Hi : 0 <= i < n) by (unfold i; nia).
  destruct (Z.ltb_spec i 0); [lia|].
  destruct (Z.ltb_spec i 0); [lia|].
  destruct (Z.ltb_spec n i); [lia|].
  destruct (Z.ltb_spec (i + cs) 0); [lia|].
  destruct (Z.ltb_spec (i + cs) 0); [lia|].
  assert (Ei : Z.to_nat i = (k * Z.to_nat cs)%nat) by (unfold i; nia).
  rewrite Ei.
  destruct (Z.ltb_spec n (i + cs)) as [Hover|Hin].
  - (* the last, short chunk: the slice stops at the end of the buffer *)
    rewrite !firstn_all2; [reflexivity| |];
      rewrite length_skipn; fold n in Hi |- *; unfold n in *; lia.
  - f_equal. lia.
Qed.

Lemma cut_concat (cs : nat) (fuel : nat) (xs : list A) :
  (length xs <= fuel * cs)%nat -> concat (cut fuel cs xs) = xs.
Proof.
  revert xs. induction fuel as [|fuel IH]; intros xs Hlen; simpl.
  - destruct xs; [reflexivity|simpl in Hlen; lia].
  - rewrite IH.
    + apply firstn_skipn.
    + rewrite length_skipn. simpl in Hlen. lia.
Qed.

Lemma cut_length (cs fuel : nat) (xs : list A) :
  length (cut fuel cs xs) = fuel.
Proof.
  revert xs. induction fuel as [|fuel IH]; intros xs; simpl; auto.
Qed.

Lemma map_seq_cut_from (cs fuel s : nat) (xs : list A) :
  map (fun k => firstn cs (skipn (k * cs) xs)) (seq s fuel)
  = cut fuel cs (skipn (s * cs) xs).
Proof.
  revert s. induction fuel as [|fuel IH]; intros s; simpl; [reflexivity|].
  f_equal. rewrite IH. now rewrite skipn_skipn.
Qed.

Lemma map_seq_cut (cs fuel : nat) (xs : list A) :
  map (fun k => firstn cs (skipn (k * cs) xs)) (seq 0 fuel) = cut fuel cs xs.
Proof. apply (map_seq_cut_from cs fuel 0 xs). Qed.

Lemma cut_nth (cs fuel : nat) (xs : list A) (k : nat) :
  (k < fuel)%nat ->
  nth k (cut fuel cs xs) [] = firstn cs (skipn (k * cs) xs).
Proof.
  revert xs k. induction fuel as [|fuel IH]; intros xs k Hk; [lia|].
  destruct k as [|k]; simpl; [reflexivity|].
  rewrite IH by lia. rewrite skipn_skipn. do 2 f_equal. lia.
Qed.

(** The streamed chunks are the structural cut of the buffer. *)
Lemma stream_chunks_cut (xs : list A) (cs : Z) :
  0 < cs ->
  stream_chunks (Py.len xs) cs (Ok xs)
  = Ok (cut (Z.to_nat (ceil_div (Py.len xs) cs)) (Z.to_nat cs) xs).
Proof.
  intros Hcs. unfold stream_chunks, Py.range.
  destruct (Z.eqb_spec cs 0) as [|_]; [lia|]. cbn [rbind].
  assert (Hn : 0 <= Py.len xs) by (unfold Py.len; lia).
  rewrite range_length_pos by assumption.
  destruct (ceil_div_bounds (Py.len xs) cs Hn Hcs) as [Hc0 Hc].
  rewrite rmapM_ok, map_map. f_equal.
  rewrite <- map_seq_cut. apply map_ext_in.
  intros k Hk. apply in_seq in Hk.
  apply slice_chunk; [assumption|]. nia.
Qed.

Lemma stream_chunks_covers (xs : list A) (cs : Z) :
  0 < cs -> covers xs cs (stream_chunks (Py.len xs) cs (Ok xs)).
Proof.
  intros Hcs.
  assert (Hn : 0 <= Py.len xs) by (unfold Py.len; lia).
  destruct (ceil_div_bounds (Py.len xs) cs Hn Hcs) as [Hc0 Hc].
  set (fuel := Z.to_nat (ceil_div (Py.len xs) cs)) in *.
  assert (Hfuel : Z.of_nat fuel = ceil_div (Py.len xs) cs) by (unfold fuel; lia).
  exists (cut fuel (Z.to_nat cs) xs).
  split; [now apply stream_chunks_cut|].
  unfold Py.len in *. rewrite cut_length.
  set (c := Z.to_nat cs).
  assert (Ecs : Z.of_nat c = cs) by (unfold c; lia).
  split; [assumption|]. split; [|split].
  - intros k Hk. rewrite cut_nth by lia.
    rewrite length_firstn, length_skipn.
    assert (S k * c <= length xs)%nat by nia.
    rewrite Nat.min_l; lia.
  - intros Hne. destruct fuel as [|fuel']; [now contradiction Hne|].
    rewrite cut_nth by lia.
    rewrite length_firstn, length_skipn.
    replace (S fuel' - 1)%nat with fuel' by lia.
    assert (fuel' * c < length xs)%nat by nia.
    destruct (Nat.min_spec c (length xs - fuel' * c)) as [[_ ->]|[_ ->]]; lia.
  - apply cut_concat. nia.
Qed.

End ChunkLemmas.

(** C2. For a buffer of [N] elements and a positive [chunk_size], both
    [stream_vertices] and [stream_faces] yield exactly [ceil(N / chunk_size)]
    chunks, each of [chunk_size] elements except possibly the last, which
    is shorter but not empty, and the chunks concatenated in order are the
    buffer itself. *)
Theorem chunk_stream_covers (m : Trimesh) (cs : Z) :
  0 < cs ->
  covers (vertices m) cs (stream_vertices (loaded m cs)) /\
  covers (faces m) cs (stream_faces (loaded m cs)).
Proof.
  intros Hcs. split.
  - apply (stream_chunks_covers (vertices m) cs Hcs).
  - apply (stream_chunks_covers (faces m) cs Hcs).
Qed.

Lemma chunk_stream_covers_witness :
  0 < 3 /\
  covers (vertices square) 3 (stream_vertices (loaded square 3)) /\
  covers (faces square) 3 (stream_faces (loaded square 3)).
Proof.
  split; [lia|]. apply (chunk_stream_covers square 3). lia.
Defined.

(** ** Lemmas on the bounding box *)

Section BoxLemmas.

Lemma xmin_assoc (a b c : xreal) : xmin a (xmin b c) = xmin (xmin a b) c.
Proof.
  destruct a, b, c; simpl; try reflexivity.
  now rewrite Rmin_assoc.
Qed.

Lemma xmax_assoc (a b c : xreal) : xmax a (xmax b c) = xmax (xmax a b) c.
Proof.
  destruct a, b, c; simpl; try reflexivity.
  now rewrite Rmax_assoc.
Qed.

Lemma np_minimum_assoc (a b c : xvec3) :
  np_minimum a (np_minimum b c) = np_minimum (np_minimum a b) c.
Proof.
  destruct a as [[a0 a1] a2], b as [[b0 b1] b2], c as [[c0 c1] c2].
  unfold np_minimum; simpl. now rewrite !xmin_assoc.
Qed.

Lemma np_maximum_assoc (a b c : xvec3) :
  np_maximum a (np_maximum b c) = np_maximum (np_maximum a b) c.
Proof.
  destruct a as [[a0 a1] a2], b as [[b0 b1] b2], c as [[c0 c1] c2].
  unfold np_maximum; simpl. now rewrite !xmax_assoc.
Qed.

Lemma fin3_min (v w : Vertex) :
  fin3 (zip3 Rmin v w) = np_minimum (fin3 v) (fin3 w).
Proof. destruct v as [[? ?] ?], w as [[? ?] ?]. reflexivity. Qed.

Lemma fin3_max (v w : Vertex) :
  fin3 (zip3 Rmax v w) = np_maximum (fin3 v) (fin3 w).
Proof. destruct v as [[? ?] ?], w as [[? ?] ?]. reflexivity. Qed.

(** Folding a chunk's own minimum into the running minimum is the same
    as folding its rows in one at a time. *)
Lemma reduce_min (vs : list Vertex) (v : Vertex) (acc : xvec3) :
  np_minimum acc (fin3 (fold_left (zip3 Rmin) vs v))
  = fold_left (fun a x => np_minimum a (fin3 x)) vs (np_minimum acc (fin3 v)).
Proof.
  revert v. induction vs as [|w vs IH]; intros v; simpl; [reflexivity|].
  now rewrite IH, fin3_min, np_minimum_assoc.
Qed.

Lemma reduce_max (vs : list Vertex) (v : Vertex) (acc : xvec3) :
  np_maximum acc (fin3 (fold_left (zip3 Rmax) vs v))
  = fold_left (fun a x => np_maximum a (fin3 x)) vs (np_maximum acc (fin3 v)).
Proof.
  revert v. induction vs as [|w vs IH]; intros v; simpl; [reflexivity|].
  now rewrite IH, fin3_max, np_maximum_assoc.
Qed.

Lemma fold_extend_box (vs : list Vertex) (lo hi : xvec3) :
  fold_left extend_box vs (lo, hi)
  = (fold_left (fun a x => np_minimum a (fin3 x)) vs lo,
     fold_left (fun a x => np_maximum a (fin3 x)) vs hi).
Proof.
  revert lo hi. induction vs as [|v vs IH]; intros lo hi; simpl; [reflexivity|].
  unfold extend_box at 2. simpl. apply IH.
Qed.

(** One pass of the loop on a non-empty chunk. *)
Lemma bounding_box_step (chunk : list Vertex) (rest : list (list Vertex))
  (lo hi : xvec3) :
  chunk <> [] ->
  bounding_box_loop (chunk :: rest) lo hi
  = bounding_box_loop rest
      (fst (fold_left extend_box chunk (lo, hi)))
      (snd (fold_left extend_box chunk (lo, hi))).
Proof.
  destruct chunk as [|v vs]; [congruence|]. intros _.
  rewrite fold_extend_box. cbn [bounding_box_loop np_min_axis0 np_max_axis0 rbind fst snd].
  now rewrite reduce_min, reduce_max.
Qed.

Lemma bounding_box_cut (c fuel : nat) (xs : list Vertex) (lo hi : xvec3) :
  (0 < c)%nat ->
  (length xs <= fuel * c)%nat ->
  (fuel * c < length xs + c)%nat ->
  bounding_box_loop (cut fuel c xs) lo hi = Ok (fold_left extend_box xs (lo, hi)).
Proof.
  intros Hc. revert xs lo hi.
  induction fuel as [|fuel IH]; intros xs lo hi Hle Hlt.
  - destruct xs; [reflexivity|simpl in Hle; lia].
  - cbn [cut]. simpl in Hle, Hlt.
    assert (Hne : firstn c xs <> []).
    { intros Hnil. apply (f_equal (@length _)) in Hnil.
      rewrite length_firstn in Hnil. simpl in Hnil. lia. }
    rewrite bounding_box_step by assumption.
    rewrite IH by (rewrite length_skipn; lia).
    rewrite <- surjective_pairing, <- fold_left_app.
    now rewrite firstn_skipn.
Qed.

Lemma calculate_bounding_box_loaded (m : Trimesh) (cs : Z) :
  0 < cs -> calculate_bounding_box (loaded m cs) = Ok (box_of (vertices m)).
Proof.
  intros Hcs. unfold calculate_bounding_box, stream_vertices.
  cbn [loaded load_model_info init total_vertices chunk_size mesh_vertices
       concatenated_mesh].
  rewrite stream_chunks_cut by assumption. cbn [rbind].
  assert (Hn : 0 <= Py.len (vertices m)) by (unfold Py.len; lia).
  destruct (ceil_div_bounds _ cs Hn Hcs) as [Hc0 Hc].
  unfold Py.len in *.
  apply bounding_box_cut; nia.
Qed.

End BoxLemmas.

(** C4. For a non-empty vertex buffer the bounding box is the same for
    every positive [chunk_size] -- it is the box of the buffer folded one
    vertex at a time -- and in particular [chunk_size = 1] and
    [chunk_size = total_vertices] give equal results. *)
Theorem bounding_box_chunk_invariant (m : Trimesh) :
  vertices m <> [] ->
  (forall cs, 0 < cs ->
     calculate_bounding_box (loaded m cs) = Ok (box_of (vertices m))) /\
  calculate_bounding_box (loaded m 1)
  = calculate_bounding_box (loaded m (total_vertices (loaded m 1))).
Proof.
  intros Hne. split.
  - intros cs Hcs. now apply calculate_bounding_box_loaded.
  - assert (0 < Py.len (vertices m)).
    { unfold Py.len. destruct (vertices m); [congruence|simpl; lia]. }
    cbn [loaded load_model_info total_vertices].
    now rewrite !calculate_bounding_box_loaded by lia.
Qed.

Lemma bounding_box_chunk_invariant_witness :
  vertices square <> [] /\
  (forall cs, 0 < cs ->
     calculate_bounding_box (loaded square cs) = Ok (box_of (vertices square))) /\
  calculate_bounding_box (loaded square 1)
  = calculate_bounding_box (loaded square (total_vertices (loaded square 1))).
Proof.
  split; [discriminate|]. apply (bounding_box_chunk_invariant square). discriminate.
Defined.

(** ** Reasoning about runs in [M] *)

Section Runs.

Context {E : Externals}.

Lemma returns_ret {A} (a : A) w (Q : A -> World -> Prop) :
  Q a w -> returns (ret a) w Q.
Proof. intros HQ. now exists a, w. Qed.

Lemma returns_lift {A} (r : PyResult A) (a : A) w (Q : A -> World -> Prop) :
  r = Ok a -> Q a w -> returns (lift r) w Q.
Proof. intros -> HQ. now exists a, w. Qed.

Lemma returns_bind {A B} (m : M A) (k : A -> M B) w (Q : B -> World -> Prop) :
  returns m w (fun a w' => returns (k a) w' Q) -> returns (bind m k) w Q.
Proof.
  intros (a & w' & Hm & b & w'' & Hk & HQ).
  exists b, w''. unfold bind. now rewrite Hm.
Qed.

Lemma returns_emit (ev : Event) w (Q : unit -> World -> Prop) :
  Q tt {| rng := rng w; cuda := cuda w; trace := trace w ++ [ev] |} ->
  returns (emit ev) w Q.
Proof. intros HQ. now eexists _, _. Qed.

Lemma returns_draw {A} (ev : Event) (f : Rng -> A * Rng) w
  (Q : A -> World -> Prop) :
  Q (fst (f (rng w)))
    {| rng := snd (f (rng w)); cuda := cuda w; trace := trace w ++ [ev] |} ->
  returns (draw ev f) w Q.
Proof.
  intros HQ. unfold returns, draw.
  destruct (f (rng w)) as [a g]. now eexists _, _.
Qed.

Lemma returns_weaken {A} (m : M A) w (P Q : A -> World -> Prop) :
  returns m w P -> (forall a w', P a w' -> Q a w') -> returns m w Q.
Proof. intros (a & w' & Hm & HP) HPQ. exists a, w'. auto. Qed.

(** A loop that maps [f] over [xs]: [Inv done ys w] holds of the items
    done so far, their results and the world reached. *)
Lemma returns_mapM {A B} (f : A -> M B)
  (Inv : list A -> list B -> World -> Prop) (xs : list A) :
  forall done ys w,
    Inv done ys w ->
    (forall x done ys w, In x xs -> Inv done ys w ->
       returns (f x) w (fun y w' => Inv (done ++ [x]) (ys ++ [y]) w')) ->
    returns (mapM f xs) w
      (fun zs w' => Inv (done ++ xs) (ys ++ zs) w').
Proof.
  induction xs as [|x xs IH]; intros done ys w HI Hstep.
  - apply returns_ret. now rewrite !app_nil_r.
  - cbn [mapM]. apply returns_bind.
    eapply returns_weaken; [apply (Hstep x done ys w); [now left|assumption]|].
    intros y w1 HI1. cbn beta. apply returns_bind.
    eapply returns_weaken.
    + apply (IH (done ++ [x]) (ys ++ [y]) w1 HI1).
      intros x' d' y' w'' Hin. apply Hstep. now right.
    + intros zs w2 HI2. cbn beta. apply returns_ret.
      now rewrite <- !app_assoc in HI2.
Qed.


End Runs.

Section RaisingRuns.

Context {E : Externals}.

Lemma raises_lift {A} (e : PyError) w (Q : PyError -> World -> Prop) :
  Q e w -> raises (@lift _ A (Raise e)) w Q.
Proof. intros HQ. now exists e, w. Qed.

Lemma raises_bind {A B} (m : M A) (k : A -> M B) w
  (Q : PyError -> World -> Prop) :
  returns m w (fun a w' => raises (k a) w' Q) -> raises (bind m k) w Q.
Proof.
  intros (a & w' & Hm & e & w'' & Hk & HQ).
  exists e, w''. unfold bind. now rewrite Hm.
Qed.

Lemma returns_try_draw {A} (ev : Event) (f : Rng -> PyResult A * Rng) w
  (Q : A -> World -> Prop) (a : A) :
  fst (f (rng w)) = Ok a ->
  Q a {| rng := snd (f (rng w)); cuda := cuda w; trace := trace w ++ [ev] |} ->
  returns (try_draw ev f) w Q.
Proof.
  intros Hf HQ. unfold returns, try_draw.
  destruct (f (rng w)) as [r g]. cbn [fst snd] in *. subst r. now eexists _, _.
Qed.

Lemma bind_ok {A B} (m : M A) (k : A -> M B) w a w' :
  m w = (Ok a, w') -> bind m k w = k a w'.
Proof. intros H. unfold bind. now rewrite H. Qed.

Lemma bind_raise {A B} (m : M A) (k : A -> M B) w e w' :
  m w = (Raise e, w') -> bind m k w = (Raise e, w').
Proof. intros H. unfold bind. now rewrite H. Qed.

Lemma lift_run {A} (r : PyResult A) w : lift r w = (r, w).
Proof. reflexivity. Qed.

Lemma gpu_session_run {A} (body : M A) w r w2 :
  body {| rng := rng w; cuda := cuda w; trace := trace w ++ [GpuSessionEnter] |}
  = (r, w2) ->
  gpu_session body w
  = (r, {| rng := rng w2; cuda := cuda w2;
           trace := trace w2 ++ [GpuSessionExit] |}).
Proof. intros H. unfold gpu_session. cbn [emit]. now rewrite H. Qed.

End RaisingRuns.

(** ** Runs of the CPU samplers *)

Section CpuRuns.

Context {E : Externals}.

Lemma len_app {A} (xs ys : list A) : Py.len (xs ++ ys) = Py.len xs + Py.len ys.
Proof. unfold Py.len. rewrite length_app. lia. Qed.

Lemma len_concat_app {A} (xss yss : list (list A)) :
  Py.len (concat (xss ++ yss)) = Py.len (concat xss) + Py.len (concat yss).
Proof. now rewrite concat_app, len_app. Qed.

Lemma vstack_ok {A} (arrays : list (list A)) :
  arrays <> [] -> vstack arrays = Ok (concat arrays).
Proof. destruct arrays; [congruence|reflexivity]. Qed.

(** [np.vstack] never accepts the list of pairs. *)
Lemma np_vstack_pairs_raises (samples : list (list Point * list nat)) :
  exists msg, np_vstack_pairs samples = Raise (ValueError msg).
Proof. destruct samples; eexists; reflexivity. Qed.

Lemma total_faces_positive (m : Trimesh) :
  faces m <> [] -> 0 < Py.len (faces m).
Proof. unfold Py.len. destruct (faces m); [congruence|simpl; lia]. Qed.

Lemma floordiv_total_faces (m : Trimesh) (cs n : Z) :
  faces m <> [] ->
  Py.floordiv n (total_faces (loaded m cs)) = Ok (n / Py.len (faces m)) /\
  Py.mod_ n (total_faces (loaded m cs)) = Ok (n mod Py.len (faces m)).
Proof.
  intros Hne. pose proof (total_faces_positive m Hne).
  unfold Py.floordiv, Py.mod_. cbn [loaded load_model_info total_faces].
  destruct (Z.eqb_spec (Py.len (faces m)) 0); [lia|]. now split.
Qed.

Lemma stream_faces_loaded (m : Trimesh) (cs : Z) :
  0 < cs ->
  exists chunks,
    stream_faces (loaded m cs) = Ok chunks /\
    concat chunks = faces m /\
    (faces m <> [] -> chunks <> []) /\
    Forall (fun c => c <> []) chunks.
Proof.
  intros Hcs.
  destruct (stream_chunks_covers (faces m) cs Hcs)
    as (chunks & Hs & Hlen & Hfull & Hlast & Hcat).
  exists chunks. split; [exact Hs|]. split; [exact Hcat|]. split.
  - intros Hne ->. simpl in Hcat. congruence.
  - apply Forall_forall. intros c Hin ->.
    destruct (In_nth _ _ [] Hin) as (k & Hk & Hnth).
    destruct (Nat.eq_dec (S k) (length chunks)) as [Hl|Hl].
    + assert (Hc : chunks <> []) by (intros ->; simpl in Hk; lia).
      specialize (Hlast Hc).
      replace (length chunks - 1)%nat with k in Hlast by lia.
      rewrite Hnth in Hlast. unfold Py.len in Hlast. simpl in Hlast. lia.
    + specialize (Hfull k ltac:(lia)). rewrite Hnth in Hfull.
      unfold Py.len in Hfull. simpl in Hfull. lia.
Qed.

(** The CPU pass of [LargeModelHandler] on a mesh with faces, whatever
    chunks the stream yields: it makes one draw per face chunk, then the
    remainder draw over the whole mesh, and then fails in [np.vstack], on
    the list of as many pairs as it made draws. *)
Lemma sample_points_cpu_run (m : Trimesh) (cs n : Z) (w : World)
  (chunks : list (list Face)) :
  faces m <> [] -> stream_faces (loaded m cs) = Ok chunks ->
  raises (_sample_points_cpu (loaded m cs) n) w (fun e w' =>
    (exists samples,
       np_vstack_pairs samples = Raise e /\
       length samples
       = (length chunks
          + (if (0 <? n mod Py.len (faces m))%Z then 1 else 0))%nat) /\
    trace w' = trace w ++ cpu_events m n chunks /\
    cuda w' = cuda w).
Proof.
  intros Hne Hs.
  destruct (floordiv_total_faces m cs n Hne) as [Hdiv Hmod].
  set (total := Py.len (faces m)) in *.
  unfold _sample_points_cpu.
  apply raises_bind, (returns_lift _ _ _ _ Hdiv).
  apply raises_bind, (returns_lift _ _ _ _ Hmod).
  apply raises_bind, (returns_lift _ _ _ _ Hs).
  apply raises_bind.
  set (ev := fun c : list Face =>
    SampleSurfaceEven (mkTrimesh (vertices m) c) (n / total * Py.len c)).
  eapply returns_weaken.
  - apply (returns_mapM _
      (fun done ys w' =>
         trace w' = trace w ++ map ev done /\
         cuda w' = cuda w /\
         length ys = length done)
      chunks [] [] w).
    + cbn. rewrite app_nil_r. auto.
    + intros c done ys w1 _ (Ht & Hc & Hl).
      apply returns_bind, (returns_lift _ (vertices m)); [reflexivity|].
      apply returns_draw. cbn [trace cuda].
      rewrite Ht, map_app, <- app_assoc, !length_app, Hl. auto.
  - cbn beta. intros ys w1 (Ht & Hc & Hl). cbn [app] in *.
    unfold cpu_events. fold total. fold ev.
    destruct (Z.ltb_spec 0 (n mod total)) as [Hrem|Hrem].
    + apply raises_bind, returns_bind, (returns_lift _ m); [reflexivity|].
      apply returns_bind, returns_draw, returns_ret.
      destruct (np_vstack_pairs_raises
                  (ys ++ [fst (sample_surface_even m (n mod total) (rng w1))]))
        as (msg & Hv).
      rewrite Hv. apply raises_lift. cbn [trace cuda].
      rewrite Ht, <- app_assoc. split; [|auto].
      eexists. split; [exact Hv|]. rewrite length_app, Hl. reflexivity.
    + apply raises_bind, returns_ret.
      destruct (np_vstack_pairs_raises (ys ++ [])) as (msg & Hv).
      rewrite Hv. apply raises_lift. rewrite app_nil_r. split; [|auto].
      eexists. split; [exact Hv|]. rewrite length_app, Hl. reflexivity.
Qed.

End CpuRuns.

(** ** Runs of [PointSampler]'s CPU pass *)

Section PoolRuns.

Context {E : Externals}.

Lemma concat_length_perm {A} (xss yss : list (list A)) :
  Permutation xss yss -> length (concat xss) = length (concat yss).
Proof.
  induction 1; cbn [concat]; rewrite ?length_app in *; lia.
Qed.

Lemma concat_repeat_snoc {A} (p : list A) (k : nat) :
  concat (repeat p (k + 1)) = concat (repeat p k) ++ p.
Proof. now rewrite repeat_app, concat_app; cbn; rewrite app_nil_r. Qed.

Lemma range_workers (t : Z) :
  0 < t -> exists workers,
    Py.range 0 t 1 = Ok workers /\ length workers = Z.to_nat t.
Proof.
  intros Ht. unfold Py.range. cbn [Z.eqb].
  eexists. split; [reflexivity|].
  rewrite length_map, length_seq, range_length_pos by lia.
  unfold ceil_div. replace (t + 1 - 1) with t by lia. now rewrite Z.div_1_r.
Qed.

(** The pass returns; it submits one task per worker and one more for
    a positive remainder, and logs before and after. *)
Lemma sample_points_on_cpu_run (mesh : Trimesh) (n t : Z) (w : World) :
  ExternalsSpec E -> valid_mesh mesh -> faces mesh <> [] -> 0 < t ->
  returns (PointSampler._sample_points_on_cpu mesh n t) w (fun pts w' =>
    trace w' = trace w ++ pool_events mesh n t /\
    cuda w' = cuda w /\
    (exists rows, pts = Float64Points rows) /\
    (0 <= n -> num_points pts = n)).
Proof.
  intros HS Hvalid Hne Ht. unfold PointSampler._sample_points_on_cpu, pool_events.
  unfold Py.floordiv, Py.mod_, PointSampler.thread_pool_executor.
  destruct (Z.eqb_spec t 0) as [|_]; [lia|].
  destruct (Z.leb_spec t 0) as [|_]; [lia|].
  destruct (range_workers t Ht) as (workers & Hr & Hw).
  set (task := fun c : Z => [Submit c; MeshSample mesh c]).
  apply returns_bind, returns_emit.
  apply returns_bind, (returns_lift _ (n / t)); [reflexivity|].
  apply returns_bind, (returns_lift _ (n mod t)); [reflexivity|].
  apply returns_bind, (returns_lift _ tt); [reflexivity|].
  apply returns_bind, (returns_lift _ workers); [exact Hr|].
  apply returns_bind. cbn [trace cuda rng].
  set (w0 := {| rng := rng w; cuda := cuda w; trace := trace w ++ [_] |}).
  eapply returns_weaken.
  - apply (returns_mapM _
      (fun (done : list Z) ys w' =>
         trace w' = trace w0 ++ concat (repeat (task (n / t)) (length done)) /\
         cuda w' = cuda w /\
         length ys = length done /\
         (0 <= n ->
          Py.len (concat ys) = Z.of_nat (length done) * (n / t)))
      workers [] [] w0).
    + cbn. rewrite app_nil_r. repeat split; try reflexivity.
    + intros x done ys w1 _ (Htr & Hc & Hl & Hn).
      unfold PointSampler.submit.
      apply returns_bind, returns_emit, returns_draw. cbn [trace cuda rng].
      rewrite !length_app. cbn [length].
      rewrite concat_repeat_snoc, Htr, <- !app_assoc.
      repeat split; try assumption.
      * now rewrite Hl.
      * intros Hn0. rewrite len_concat_app, (Hn Hn0).
        cbn [concat]. rewrite app_nil_r, mesh_sample_len; try assumption.
        -- lia.
        -- apply Z.div_pos; lia.
  - cbn beta. intros ys w1 (Htr & Hc & Hl & Hn). cbn [app] in *.
    rewrite Hw in *.
    assert (Hys : ys <> []).
    { intros ->. simpl in Hl. lia. }
    assert (Hvs : forall extra,
      vstack (as_completed (ys ++ extra))
      = Ok (concat (as_completed (ys ++ extra)))).
    { intros extra. apply vstack_ok. intros Hnil.
      pose proof (Permutation_length (as_completed_perm (ys ++ extra))) as Hlen.
      rewrite Hnil, length_app in Hlen. simpl in Hlen. lia. }
    assert (Hlen : forall extra,
      Py.len (concat (as_completed (ys ++ extra)))
      = Py.len (concat ys) + Py.len (concat extra)).
    { intros extra. rewrite <- len_concat_app. unfold Py.len. f_equal.
      apply concat_length_perm, as_completed_perm. }
    destruct (Z.ltb_spec 0 (n mod t)) as [Hrem|Hrem].
    + unfold PointSampler.submit.
      apply returns_bind, returns_bind, returns_bind, returns_emit.
      apply returns_draw, returns_ret.
      apply returns_bind, (returns_lift _ _ _ _ (Hvs _)).
      apply returns_bind, returns_emit, returns_ret.
      cbn [trace cuda rng num_points]. rewrite Htr. unfold w0. cbn [trace].
      rewrite <- !app_assoc. repeat split; try assumption; [eauto|].
      intros Hn0. rewrite Hlen, (Hn Hn0).
      cbn [concat]. rewrite app_nil_r, mesh_sample_len by (assumption || lia).
      pose proof (Z.div_mod n t ltac:(lia)). lia.
    + apply returns_bind, returns_ret.
      apply returns_bind, (returns_lift _ _ _ _ (Hvs _)).
      apply returns_bind, returns_emit, returns_ret.
      cbn [trace cuda rng num_points]. rewrite Htr. unfold w0. cbn [trace].
      rewrite <- !app_assoc. repeat split; try assumption; [eauto|].
      intros Hn0. rewrite Hlen, (Hn Hn0).
      pose proof (Z.div_mod n t ltac:(lia)).
      pose proof (Z.mod_pos_bound n t Ht). cbn. lia.
Qed.

End PoolRuns.

(** ** What a pass may add to the trace *)

Section Emits.

Context {E : Externals}.

Lemma emits_weaken {A} (P Q : Event -> bool) (m : M A) :
  (forall ev, P ev = true -> Q ev = true) -> emits P m -> emits Q m.
Proof.
  intros HPQ Hm w. destruct (Hm w) as (evs & Ht & HP & Hc).
  exists evs. repeat split; try assumption.
  rewrite forallb_forall in *. auto.
Qed.

Lemma emits_ret {A} P (a : A) : emits P (ret a).
Proof. intros w. exists []. cbn. now rewrite app_nil_r. Qed.

Lemma emits_lift {A} P (r : PyResult A) : emits P (lift r).
Proof. intros w. exists []. cbn. now rewrite app_nil_r. Qed.

Lemma emits_emit P (ev : Event) : P ev = true -> emits P (emit ev).
Proof. intros HP w. exists [ev]. cbn. now rewrite HP. Qed.

Lemma emits_draw {A} P (ev : Event) (f : Rng -> A * Rng) :
  P ev = true -> emits P (draw ev f).
Proof.
  intros HP w. exists [ev]. unfold draw.
  destruct (f (rng w)). cbn. now rewrite HP.
Qed.

Lemma emits_try_draw {A} P (ev : Event) (f : Rng -> PyResult A * Rng) :
  P ev = true -> emits P (try_draw ev f).
Proof.
  intros HP w. exists [ev]. unfold try_draw.
  destruct (f (rng w)). cbn. now rewrite HP.
Qed.

Lemma emits_bind {A B} P (m : M A) (k : A -> M B) :
  emits P m -> (forall a, emits P (k a)) -> emits P (bind m k).
Proof.
  intros Hm Hk w. unfold bind.
  destruct (Hm w) as (evs & Ht & HP & Hc).
  destruct (m w) as [[a|e] w1]; cbn [snd] in *.
  - destruct (Hk a w1) as (evs' & Ht' & HP' & Hc').
    exists (evs ++ evs'). rewrite Ht', Ht, Hc', Hc, forallb_app, HP, HP'.
    now rewrite app_assoc.
  - exists evs. auto.
Qed.

Lemma emits_mapM {A B} P (f : A -> M B) (xs : list A) :
  (forall x, emits P (f x)) -> emits P (mapM f xs).
Proof.
  intros Hf. induction xs as [|x xs IH]; cbn [mapM].
  - apply emits_ret.
  - apply emits_bind; [apply Hf|]. intros y.
    apply emits_bind; [apply IH|]. intros ys. apply emits_ret.
Qed.

Lemma emits_foldM {A S} P (f : S -> A -> M S) (xs : list A) (s : S) :
  (forall s x, emits P (f s x)) -> emits P (foldM f xs s).
Proof.
  intros Hf. revert s. induction xs as [|x xs IH]; intros s; cbn [foldM].
  - apply emits_ret.
  - apply emits_bind; [apply Hf|]. intros s'. apply IH.
Qed.

Lemma emits_gpu_session {A} P (body : M A) :
  P GpuSessionEnter = true -> P GpuSessionExit = true ->
  emits P body -> emits P (gpu_session body).
Proof.
  intros Hin Hout Hb w. unfold gpu_session. cbn [emit].
  set (w1 := {| rng := rng w; cuda := cuda w; trace := trace w ++ [GpuSessionEnter] |}).
  destruct (Hb w1) as (evs & Ht & HP & Hc).
  destruct (body w1) as [r w2]. cbn [snd trace cuda] in *.
  exists (GpuSessionEnter :: evs ++ [GpuSessionExit]).
  unfold emit. cbn [snd trace cuda forallb].
  rewrite Ht, Hc, forallb_app, Hin, HP. cbn [forallb]. rewrite Hout.
  unfold w1. cbn [trace cuda]. rewrite <- !app_assoc. auto.
Qed.

(** The CPU pass of the handler only ever calls its drawing primitive. *)
Lemma emits_sample_points_cpu (self : LargeModelHandler) (n : Z) :
  emits is_cpu_draw (_sample_points_cpu self n).
Proof.
  unfold _sample_points_cpu.
  apply emits_bind; [apply emits_lift|]. intros spf.
  apply emits_bind; [apply emits_lift|]. intros rem.
  apply emits_bind; [apply emits_lift|]. intros chunks.
  apply emits_bind.
  { apply emits_mapM. intros c.
    apply emits_bind; [apply emits_lift|]. intros vs.
    now apply emits_draw. }
  intros samples. apply emits_bind; [|intros; apply emits_lift].
  destruct (0 <? rem); [|apply emits_ret].
  apply emits_bind; [apply emits_lift|]. intros m.
  apply emits_bind; [now apply emits_draw|]. intros. apply emits_ret.
Qed.

(** The GPU passes only ever touch the device, apart from logging
    progress. *)
Lemma emits_gpu_chunk V spf st c :
  emits is_device_op (gpu_chunk V spf st c).
Proof.
  unfold gpu_chunk, allocate_gpu_tensor, multinomial, rand.
  apply emits_bind.
  { apply emits_bind; [now apply emits_emit|]. intros; apply emits_ret. }
  intros fs. apply emits_bind; [apply emits_lift|]. intros probs.
  apply emits_bind; [now apply emits_try_draw|]. intros idx.
  apply emits_bind; [now apply emits_draw|]. intros r1.
  apply emits_bind; [now apply emits_draw|]. intros r2.
  apply emits_bind; [apply emits_lift|]. intros pts. apply emits_ret.
Qed.

Lemma emits_gpu_remainder V rem st :
  emits is_device_op (gpu_remainder V rem st).
Proof.
  unfold gpu_remainder, multinomial, rand.
  destruct (0 <? rem); [|apply emits_ret].
  destruct (last_chunk st) as [[fs probs]|]; [|apply emits_lift].
  apply emits_bind; [now apply emits_try_draw|]. intros idx.
  apply emits_bind; [now apply emits_draw|]. intros r1.
  apply emits_bind; [now apply emits_draw|]. intros r2.
  apply emits_bind; [apply emits_lift|]. intros pts. apply emits_ret.
Qed.

Lemma emits_sample_points_gpu (self : LargeModelHandler) (n : Z) :
  emits is_device_op (_sample_points_gpu self n).
Proof.
  unfold _sample_points_gpu.
  apply emits_bind; [apply emits_lift|]. intros spf.
  apply emits_bind; [apply emits_lift|]. intros rem.
  apply emits_bind;
    [|intros; apply emits_bind; [apply emits_lift|intros; apply emits_ret]].
  apply emits_gpu_session; [reflexivity..|].
  apply emits_bind; [apply emits_lift|]. intros vs.
  apply emits_bind.
  { unfold allocate_gpu_tensor.
    apply emits_bind; [now apply emits_emit|]. intros; apply emits_ret. }
  intros V. apply emits_bind; [apply emits_lift|]. intros chunks.
  apply emits_bind.
  { apply emits_foldM. intros. apply emits_gpu_chunk. }
  intros st. apply emits_gpu_remainder.
Qed.

Lemma emits_sample_points_on_gpu (mesh : Trimesh) (n : Z) :
  emits (fun ev => is_device_op ev || is_info ev)
    (PointSampler._sample_points_on_gpu mesh n).
Proof.
  unfold PointSampler._sample_points_on_gpu, logging, multinomial, rand.
  apply emits_bind; [now apply emits_emit|]. intros _.
  apply emits_bind; [apply emits_ret|]. intros V.
  apply emits_bind; [apply emits_ret|]. intros F.
  apply emits_bind; [apply emits_lift|]. intros probs.
  apply emits_bind; [now apply emits_try_draw|]. intros idx.
  apply emits_bind; [now apply emits_draw|]. intros r1.
  apply emits_bind; [now apply emits_draw|]. intros r2.
  apply emits_bind; [apply emits_lift|]. intros pts.
  apply emits_bind; [now apply emits_emit|]. intros _. apply emits_ret.
Qed.

Lemma emits_sample_points_on_cpu (mesh : Trimesh) (n t : Z) :
  emits (fun ev => is_cpu_draw ev || is_info ev)
    (PointSampler._sample_points_on_cpu mesh n t).
Proof.
  unfold PointSampler._sample_points_on_cpu, PointSampler.submit, logging.
  apply emits_bind; [now apply emits_emit|]. intros _.
  apply emits_bind; [apply emits_lift|]. intros spt.
  apply emits_bind; [apply emits_lift|]. intros rem.
  apply emits_bind; [apply emits_lift|]. intros _.
  apply emits_bind; [apply emits_lift|]. intros workers.
  apply emits_bind.
  { apply emits_mapM. intros _.
    apply emits_bind; [now apply emits_emit|]. intros _. now apply emits_draw. }
  intros futures. apply emits_bind.
  { destruct (0 <? rem); [|apply emits_ret].
    apply emits_bind; [|intros; apply emits_ret].
    apply emits_bind; [now apply emits_emit|]. intros _. now apply emits_draw. }
  intros extra. apply emits_bind; [apply emits_lift|]. intros pts.
  apply emits_bind; [now apply emits_emit|]. intros _. apply emits_ret.
Qed.

End Emits.

(** ** The exact-arithmetic externals meet the contract *)

Lemma fixed_externals_spec : ExternalsSpec fixed_externals.
Proof.
  split; cbn.
  - intros. unfold Py.len. rewrite repeat_length. lia.
  - intros probs n g idx. destruct probs as [|p probs]; [discriminate|].
    destruct (Z.ltb_spec 0 n); [|discriminate]. intros [= <-]. split.
    + unfold Py.len. rewrite repeat_length. lia.
    + apply Forall_forall. intros i Hi. apply repeat_spec in Hi. subst i.
      simpl. lia.
  - intros. unfold Py.len. rewrite repeat_length. lia.
  - intros. symmetry. apply Permutation_rev.
Qed.

Lemma valid_mesh_square : valid_mesh square.
Proof. repeat constructor. Qed.

(** ** Exact counts on the CPU *)

Section Counts.

Context {E : Externals}.

Lemma total_requested_app (xs ys : list Event) :
  total_requested (xs ++ ys) = total_requested xs + total_requested ys.
Proof.
  unfold total_requested.
  induction xs as [|x xs IH]; cbn [app fold_right]; [lia|].
  rewrite IH. lia.
Qed.

Lemma total_requested_chunks (V : list Vertex) (k : Z) (chunks : list (list Face)) :
  total_requested
    (map (fun c => SampleSurfaceEven (mkTrimesh V c) (k * Py.len c)) chunks)
  = k * Py.len (concat chunks).
Proof.
  induction chunks as [|c chunks IH]; cbn [map concat]; [cbn; lia|].
  change (total_requested (?x :: ?l)) with (requested x + total_requested l).
  rewrite IH, len_app. cbn [requested]. lia.
Qed.

Lemma total_requested_cpu_events (m : Trimesh) (n : Z) chunks :
  faces m <> [] -> concat chunks = faces m ->
  total_requested (cpu_events m n chunks) = n.
Proof.
  intros Hne Hcat. unfold cpu_events.
  assert (Htot : 0 < Py.len (faces m)).
  { unfold Py.len. destruct (faces m); [congruence|simpl; lia]. }
  rewrite total_requested_app, total_requested_chunks, Hcat.
  pose proof (Z.div_mod n (Py.len (faces m)) ltac:(lia)).
  pose proof (Z.mod_pos_bound n (Py.len (faces m)) Htot).
  destruct (Z.ltb_spec 0 (n mod Py.len (faces m))); cbn; lia.
Qed.

Lemma total_requested_tasks (mesh : Trimesh) (c : Z) (k : nat) :
  total_requested (concat (repeat [Submit c; MeshSample mesh c] k))
  = Z.of_nat k * c.
Proof.
  induction k as [|k IH]; [reflexivity|].
  cbn [repeat concat]. rewrite total_requested_app, IH.
  change (total_requested [Submit c; MeshSample mesh c]) with (0 + (c + 0)).
  lia.
Qed.

Lemma total_requested_pool_events (mesh : Trimesh) (n t : Z) :
  0 < t -> total_requested (pool_events mesh n t) = n.
Proof.
  intros Ht. unfold pool_events.
  rewrite !total_requested_app, total_requested_tasks.
  pose proof (Z.div_mod n t ltac:(lia)).
  pose proof (Z.mod_pos_bound n t Ht).
  destruct (Z.ltb_spec 0 (n mod t)); cbn; lia.
Qed.

End Counts.

(** C1, evaluated on the code.  On a well-formed mesh with at least one
    face, for [num_samples > 0], a positive [chunk_size] and a positive
    worker count, the counts that both CPU passes ask their drawing
    primitive for -- [num_samples div num_threads] per worker, or
    [(num_samples div total_faces) * len(chunk)] per chunk, plus the
    remainder -- sum to [num_samples].  The pool pass of [PointSampler]
    returns exactly [num_samples] points.  The chunked pass of the handler
    returns nothing: after its draws it fails with the [ValueError] of
    [np.vstack], which is given the [(points, face_index)] pairs that
    [sample_surface_even] returned instead of their points. *)
Theorem chunked_cpu_pass_fails_in_vstack {E : Externals} (HS : ExternalsSpec E)
  (m : Trimesh) (n cs t : Z) (w : World) :
  valid_mesh m -> faces m <> [] -> 0 < n -> 0 < cs -> 0 < t ->
  (exists rows w',
     PointSampler._sample_points_on_cpu m n t w = (Ok (Float64Points rows), w') /\
     Py.len rows = n /\
     trace w' = trace w ++ pool_events m n t /\
     total_requested (pool_events m n t) = n) /\
  (exists chunks msg w',
     stream_faces (loaded m cs) = Ok chunks /\
     _sample_points_cpu (loaded m cs) n w = (Raise (ValueError msg), w') /\
     trace w' = trace w ++ cpu_events m n chunks /\
     total_requested (cpu_events m n chunks) = n).
Proof.
  intros Hvalid Hne Hn Hcs Ht. split.
  - destruct (sample_points_on_cpu_run m n t w HS Hvalid Hne Ht)
      as (pts & w' & Hrun & Htr & _ & (rows & ->) & Hlen).
    exists rows, w'. split; [exact Hrun|]. split; [apply Hlen; lia|].
    split; [exact Htr|]. now apply total_requested_pool_events.
  - destruct (stream_faces_loaded m cs Hcs) as (chunks & Hs & Hcat & _).
    destruct (sample_points_cpu_run m cs n w chunks Hne Hs)
      as (e & w' & Hrun & (samples & Hv & _) & Htr & _).
    destruct (np_vstack_pairs_raises samples) as (msg & Hmsg).
    assert (e = ValueError msg) by congruence. subst e.
    exists chunks, msg, w'. split; [exact Hs|]. split; [exact Hrun|].
    split; [exact Htr|]. now apply total_requested_cpu_events.
Qed.

Lemma chunked_cpu_pass_fails_in_vstack_witness :
  ExternalsSpec fixed_externals /\
  valid_mesh square /\ faces square <> [] /\ 0 < 5 /\ 0 < 1 /\ 0 < 2 /\
  (exists rows w',
     PointSampler._sample_points_on_cpu square 5 2 (start false)
     = (Ok (Float64Points rows), w') /\
     Py.len rows = 5 /\
     trace w' = trace (start false) ++ pool_events square 5 2 /\
     total_requested (@pool_events fixed_externals square 5 2) = 5) /\
  (exists chunks msg w',
     stream_faces (loaded square 1) = Ok chunks /\
     _sample_points_cpu (loaded square 1) 5 (start false)
     = (Raise (ValueError msg), w') /\
     trace w' = trace (start false) ++ cpu_events square 5 chunks /\
     total_requested (@cpu_events fixed_externals square 5 chunks) = 5).
Proof.
  split; [exact fixed_externals_spec|]. split; [exact valid_mesh_square|].
  split; [discriminate|]. split; [lia|]. split; [lia|]. split; [lia|].
  apply (chunked_cpu_pass_fails_in_vstack fixed_externals_spec square 5 1 2
           (start false));
    [exact valid_mesh_square|discriminate|lia|lia|lia].
Defined.

(** ** Degenerate inputs *)

Section Degenerate.

Context {E : Externals}.

Lemma range_empty_stop (cs : Z) : Py.range_length 0 0 cs = 0.
Proof.
  unfold Py.range_length.
  destruct (0 <? cs); cbn; reflexivity.
Qed.

Lemma range_negative_step (n cs : Z) :
  0 <= n -> cs < 0 -> Py.range 0 n cs = Ok [].
Proof.
  intros Hn Hcs. unfold Py.range, Py.range_length.
  destruct (Z.eqb_spec cs 0); [lia|].
  destruct (Z.ltb_spec 0 cs); [lia|].
  destruct (Z.ltb_spec n 0); [lia|]. reflexivity.
Qed.

Lemma stream_chunks_nonpositive {A} (xs : list A) (cs : Z) :
  cs <= 0 ->
  stream_chunks (Py.len xs) cs (Ok xs)
  = if cs =? 0 then Raise (ValueError "range() arg 3 must not be zero")
    else Ok [].
Proof.
  intros Hcs. unfold stream_chunks.
  destruct (Z.eqb_spec cs 0) as [->|Hz]; [reflexivity|].
  rewrite range_negative_step by (unfold Py.len; lia). reflexivity.
Qed.

Lemma bounding_box_no_vertices (fs : list Face) (cs : Z) :
  calculate_bounding_box (loaded (mkTrimesh [] fs) cs)
  = if cs =? 0 then Raise (ValueError "range() arg 3 must not be zero")
    else Ok (inf3, neg_inf3).
Proof.
  unfold calculate_bounding_box, stream_vertices, stream_chunks, Py.range.
  cbn [loaded load_model_info init total_vertices chunk_size vertices Py.len length Z.of_nat].
  destruct (cs =? 0); [reflexivity|].
  now rewrite range_empty_stop.
Qed.

End Degenerate.

(** C5, as the code has it.  A mesh without vertices does not make
    [calculate_bounding_box] fail: for a non-zero [chunk_size] it returns
    the initial extrema, [+inf] and [-inf].  A mesh without faces makes
    both sampling passes of the handler fail, with the [ZeroDivisionError]
    of the division by [total_faces], before anything is drawn or any
    device operation is issued. *)
Theorem empty_mesh_outcomes {E : Externals}
  (vs : list Vertex) (fs : list Face) (cs n : Z) (w : World) :
  calculate_bounding_box (loaded (mkTrimesh [] fs) cs)
  = (if cs =? 0 then Raise (ValueError "range() arg 3 must not be zero")
     else Ok (inf3, neg_inf3)) /\
  _sample_points_cpu (loaded (mkTrimesh vs []) cs) n w
  = (Raise ZeroDivisionError, w) /\
  _sample_points_gpu (loaded (mkTrimesh vs []) cs) n w
  = (Raise ZeroDivisionError, w).
Proof.
  split; [apply bounding_box_no_vertices|]. split; reflexivity.
Qed.

(** C5 as stated fails: the bounding box of a mesh with zero vertices is
    returned, and it is the pair of initial infinite extrema. *)
Lemma bounding_box_of_no_vertices_returns :
  calculate_bounding_box (loaded (mkTrimesh [] []) 1) = Ok (inf3, neg_inf3).
Proof. reflexivity. Qed.

(** C8, as the code has it.  Nothing in the streamer checks
    [chunk_size]: a zero [chunk_size] fails with the [ValueError] of
    [range], a negative one yields no chunk at all and no failure, so
    that the bounding box is the pair of initial extrema.  Non-positive
    values are rejected by [validate_arguments] at the command surface,
    with a [ValueError]. *)
Theorem nonpositive_chunk_size (m : Trimesh) (args : Main.Args) (cs : Z) :
  cs <= 0 -> Main.chunk_size args = cs ->
  stream_vertices (loaded m cs)
  = (if cs =? 0 then Raise (ValueError "range() arg 3 must not be zero")
     else Ok []) /\
  stream_faces (loaded m cs)
  = (if cs =? 0 then Raise (ValueError "range() arg 3 must not be zero")
     else Ok []) /\
  calculate_bounding_box (loaded m cs)
  = (if cs =? 0 then Raise (ValueError "range() arg 3 must not be zero")
     else Ok (inf3, neg_inf3)) /\
  exists msg, Main.validate_arguments args = Raise (ValueError msg).
Proof.
  intros Hcs Hargs.
  assert (Hv : stream_vertices (loaded m cs)
    = (if cs =? 0 then Raise (ValueError "range() arg 3 must not be zero")
       else Ok [])) by apply (stream_chunks_nonpositive (vertices m) cs Hcs).
  split; [exact Hv|].
  split; [apply (stream_chunks_nonpositive (faces m) cs Hcs)|]. split.
  - unfold calculate_bounding_box. rewrite Hv.
    destruct (cs =? 0); reflexivity.
  - unfold Main.validate_arguments.
    destruct (Main.max_resolution args <=? 0); [eauto|].
    destruct (Main.num_samples args <=? 0); [eauto|].
    destruct (Main.num_threads args <? 1); [eauto|].
    destruct (Z.leb_spec (Main.chunk_size args) 0); [eauto|lia].
Qed.

Lemma nonpositive_chunk_size_witness :
  -1 <= 0 /\
  Main.chunk_size (Main.mkArgs 256 10000 4 (-1)) = -1 /\
  stream_vertices (loaded square (-1)) = Ok [] /\
  stream_faces (loaded square (-1)) = Ok [] /\
  calculate_bounding_box (loaded square (-1)) = Ok (inf3, neg_inf3) /\
  exists msg,
    Main.validate_arguments (Main.mkArgs 256 10000 4 (-1)) = Raise (ValueError msg).
Proof.
  split; [lia|]. split; [reflexivity|].
  apply (nonpositive_chunk_size square (Main.mkArgs 256 10000 4 (-1)) (-1));
    [lia|reflexivity].
Defined.

(** C8 as stated fails: with [chunk_size = -1] streaming the vertices of
    the square does not fail, it yields no chunk. *)
Lemma negative_chunk_size_streams_nothing :
  stream_vertices (loaded square (-1)) = Ok [].
Proof. reflexivity. Qed.

(** C10. With [use_gpu = False] the handler's [sample_points] is the CPU
    pass itself, run from the same world: whatever the handler and the
    number of samples, the run adds no device-availability query and no
    device operation to the trace, only draws of the CPU primitive. *)
Theorem sample_points_without_gpu_is_cpu {E : Externals}
  (self : LargeModelHandler) (n : Z) (w : World) :
  sample_points self n false w = _sample_points_cpu self n w /\
  exists evs,
    trace (snd (sample_points self n false w)) = trace w ++ evs /\
    forallb is_cpu_draw evs = true /\
    forallb (fun ev => negb (is_cuda_query ev || is_device_op ev)) evs = true.
Proof.
  split; [reflexivity|].
  change (sample_points self n false w) with (_sample_points_cpu self n w).
  destruct (emits_sample_points_cpu self n w) as (evs & Ht & HP & _).
  exists evs. repeat split; try assumption.
  rewrite forallb_forall in *. intros ev Hin.
  specialize (HP ev Hin). now destruct ev.
Qed.

(** C6, evaluated on the code.  Both orchestrators take the GPU pass
    when the GPU is requested and a device is present, and the CPU pass
    when it is requested and absent; the GPU passes add device operations
    and progress lines only, never a CPU draw.  The handler logs its
    warning before falling back.  [PointSampler.sample_points] does not:
    on the fallback its run adds the availability query, CPU draws and
    progress lines, and no warning. *)
Theorem fallback_dispatch {E : Externals}
  (self : LargeModelHandler) (mesh : Trimesh) (n t : Z)
  (g : Rng) (tr : list Event) :
  let asked b := mkWorld g b (tr ++ [CudaIsAvailable b]) in
  (* the handler *)
  sample_points self n true (mkWorld g true tr)
  = _sample_points_gpu self n (asked true) /\
  sample_points self n true (mkWorld g false tr)
  = _sample_points_cpu self n
      (mkWorld g false (tr ++ [CudaIsAvailable false; Log WARNING fallback_warning])) /\
  (* the point sampler *)
  PointSampler.sample_points mesh n true t (mkWorld g true tr)
  = PointSampler._sample_points_on_gpu mesh n (asked true) /\
  PointSampler.sample_points mesh n true t (mkWorld g false tr)
  = PointSampler._sample_points_on_cpu mesh n t (asked false) /\
  (exists evs,
     trace (snd (PointSampler.sample_points mesh n true t (mkWorld g false tr)))
     = tr ++ CudaIsAvailable false :: evs /\
     forallb (fun ev => negb (is_warning ev)) evs = true) /\
  (* the GPU passes *)
  emits (fun ev => negb (is_cpu_draw ev)) (_sample_points_gpu self n) /\
  emits (fun ev => negb (is_cpu_draw ev)) (PointSampler._sample_points_on_gpu mesh n).
Proof.
  intros asked.
  assert (Hcpu : PointSampler.sample_points mesh n true t (mkWorld g false tr)
                 = PointSampler._sample_points_on_cpu mesh n t (asked false))
    by reflexivity.
  split; [reflexivity|]. split.
  { unfold sample_points, logging. cbn. now rewrite <- app_assoc. }
  split; [reflexivity|]. split; [exact Hcpu|]. split; [|split].
  - rewrite Hcpu.
    destruct (emits_sample_points_on_cpu mesh n t (asked false)) as (evs & Ht & HP & _).
    exists evs. rewrite Ht. cbn [asked trace]. rewrite <- app_assoc. split; [reflexivity|].
    rewrite forallb_forall in *. intros ev Hin.
    specialize (HP ev Hin). now destruct ev as [[|] ?| | | | | | | | |].
  - eapply emits_weaken; [|apply emits_sample_points_gpu].
    intros ev. now destruct ev.
  - eapply emits_weaken; [|apply emits_sample_points_on_gpu].
    intros ev. now destruct ev as [[|] ?| | | | | | | | |].
Qed.

(** ** Boxes *)

Section Geometry.

Lemma xle_refl (a : xreal) : xle a a.
Proof. destruct a; simpl; auto. lra. Qed.

Lemma xle_trans (a b c : xreal) : xle a b -> xle b c -> xle a c.
Proof. destruct a, b, c; simpl; try tauto; try lra. Qed.

Lemma xmin_le_l (a b : xreal) : xle (xmin a b) a.
Proof.
  destruct a, b; simpl; auto; try lra. apply Rmin_l.
Qed.

Lemma xmin_le_r (a b : xreal) : xle (xmin a b) b.
Proof.
  destruct a, b; simpl; auto; try lra. apply Rmin_r.
Qed.

Lemma xmax_ge_l (a b : xreal) : xle a (xmax a b).
Proof.
  destruct a, b; simpl; auto; try lra. apply Rmax_l.
Qed.

Lemma xmax_ge_r (a b : xreal) : xle b (xmax a b).
Proof.
  destruct a, b; simpl; auto; try lra. apply Rmax_r.
Qed.

Lemma box_le_refl box : box_le box box.
Proof.
  destruct box as [[[? ?] ?] [[? ?] ?]]. simpl.
  repeat split; apply xle_refl.
Qed.

Lemma box_le_trans a b c : box_le a b -> box_le b c -> box_le a c.
Proof.
  destruct a as [[[? ?] ?] [[? ?] ?]], b as [[[? ?] ?] [[? ?] ?]],
    c as [[[? ?] ?] [[? ?] ?]]. simpl.
  intros [[? ?] [[? ?] [? ?]]] [[? ?] [[? ?] [? ?]]].
  repeat split; eapply xle_trans; eassumption.
Qed.

Lemma extend_box_grows box v : box_le box (extend_box box v).
Proof.
  destruct box as [[[? ?] ?] [[? ?] ?]], v as [[? ?] ?]. simpl.
  repeat split; first [apply xmin_le_l | apply xmax_ge_l].
Qed.

Lemma extend_box_contains box v : in_box (extend_box box v) v.
Proof.
  destruct box as [[[? ?] ?] [[? ?] ?]], v as [[? ?] ?]. simpl.
  repeat split; first [apply xmin_le_r | apply xmax_ge_r].
Qed.

Lemma in_box_mono box box' p : box_le box box' -> in_box box p -> in_box box' p.
Proof.
  destruct box as [[[? ?] ?] [[? ?] ?]], box' as [[[? ?] ?] [[? ?] ?]],
    p as [[? ?] ?]. simpl.
  intros [[? ?] [[? ?] [? ?]]] [[? ?] [[? ?] [? ?]]].
  repeat split; eapply xle_trans; eassumption.
Qed.

Lemma fold_extend_box_grows vs box : box_le box (fold_left extend_box vs box).
Proof.
  revert box. induction vs as [|v vs IH]; intros box; simpl.
  - apply box_le_refl.
  - eapply box_le_trans; [apply extend_box_grows|apply IH].
Qed.

Lemma fold_extend_box_contains vs box v :
  In v vs -> in_box (fold_left extend_box vs box) v.
Proof.
  revert box. induction vs as [|x vs IH]; intros box Hin; [contradiction|].
  simpl. destruct Hin as [->|Hin]; [|now apply IH].
  eapply in_box_mono; [apply fold_extend_box_grows|apply extend_box_contains].
Qed.

(** Every vertex lies in the box of its buffer. *)
Lemma box_of_contains (vs : list Vertex) (v : Vertex) :
  In v vs -> in_box (box_of vs) v.
Proof. apply fold_extend_box_contains. Qed.

End Geometry.

(** ** Runs of the GPU passes *)

Section GpuRuns.

Context {E : Externals} (HS : ExternalsSpec E).

Lemma returns_draw_eq {A} (ev : Event) (f : Rng -> A * Rng) w
  (Q : A -> World -> Prop) :
  (forall a g, f (rng w) = (a, g) ->
     Q a {| rng := g; cuda := cuda w; trace := trace w ++ [ev] |}) ->
  returns (draw ev f) w Q.
Proof.
  intros HQ. unfold returns, draw.
  destruct (f (rng w)) as [a g] eqn:Hf. eexists _, _. split; [reflexivity|].
  now apply HQ.
Qed.

Lemma returns_emits {A} P (m : M A) w (Q : A -> World -> Prop) :
  emits P m -> returns m w Q ->
  returns m w (fun a w' =>
    Q a w' /\ exists evs, trace w' = trace w ++ evs /\ forallb P evs = true).
Proof.
  intros Hm (a & w' & Hrun & HQ).
  destruct (Hm w) as (evs & Ht & HP & _). rewrite Hrun in Ht.
  exists a, w'. eauto.
Qed.


Lemma map_long (F : list Face) : map long F = F.
Proof. unfold long. apply map_id. Qed.

Lemma valid_face_map {A B} (g : A -> B) (V : list A) (f : Face) :
  valid_face V f -> valid_face (map g V) f.
Proof. destruct f as [[i0 i1] i2]. cbn. now rewrite length_map. Qed.

Lemma gather_ok {A} (xs : list A) (idx : list nat) :
  Forall (fun i => (i < length xs)%nat) idx ->
  exists ys, gather xs idx = Ok ys /\ length ys = length idx /\
             Forall (fun y => In y xs) ys.
Proof.
  unfold gather. induction 1 as [|i idx Hi _ (ys & Hy & Hl & Hin)].
  - exists []. auto.
  - cbn [rmapM]. destruct (nth_error xs i) as [a|] eqn:Hn.
    + rewrite Hy. cbn [rbind]. exists (a :: ys).
      split; [reflexivity|]. split; [simpl; now rewrite Hl|].
      constructor; [eapply nth_error_In; eassumption|assumption].
    + apply nth_error_None in Hn. lia.
Qed.

Lemma column_length (k : nat) (F : list Face) : length (column k F) = length F.
Proof. unfold column. apply length_map. Qed.

Lemma column_valid {A} (V : list A) (k : nat) (F : list Face) :
  Forall (valid_face V) F -> Forall (fun i => (i < length V)%nat) (column k F).
Proof.
  unfold column. induction 1 as [|f F Hf _ IH]; cbn [map]; constructor; [|exact IH].
  destruct f as [[i0 i1] i2]. destruct Hf as (H0 & H1 & H2).
  destruct k as [|[|k]]; assumption.
Qed.

Lemma rows2_length {X Y W} (f : X -> Y -> W) (xs : list X) (ys : list Y) :
  length xs = length ys -> length (rows2 f xs ys) = length xs.
Proof.
  intros Hl. unfold rows2. rewrite length_map, length_combine. lia.
Qed.

Lemma torch_cross_length (a b : list vec3) :
  length a = length b -> length (torch_cross a b) = length a.
Proof.
  intros Hl. unfold torch_cross.
  destruct a as [|a0 [|a1 [|a2 [|a3 a]]]];
    destruct b as [|b0 [|b1 [|b2 [|b3 b]]]]; try discriminate;
    try (now apply rows2_length).
  destruct a0 as [[? ?] ?], a1 as [[? ?] ?], a2 as [[? ?] ?],
    b0 as [[? ?] ?], b1 as [[? ?] ?], b2 as [[? ?] ?].
  cbn [transpose3].
  destruct (cross3 _ _) as [[? ?] ?], (cross3 _ _) as [[? ?] ?],
    (cross3 _ _) as [[? ?] ?]. reflexivity.
Qed.

(** On faces whose indices are in bounds the probabilities are
    computed, one per face of the batch. *)
Lemma face_probs_ok (V : list vec3) (F : list Face) :
  Forall (valid_face V) F ->
  exists probs, face_probs_of V F = Ok probs /\ length probs = length F.
Proof.
  intros HF. unfold face_probs_of, face_areas.
  destruct (gather_ok V (column 0 F) (column_valid V 0 F HF)) as (v0 & E0 & L0 & _).
  destruct (gather_ok V (column 1 F) (column_valid V 1 F HF)) as (v1 & E1 & L1 & _).
  destruct (gather_ok V (column 2 F) (column_valid V 2 F HF)) as (v2 & E2 & L2 & _).
  rewrite E0, E1, E2. cbn [rbind]. eexists. split; [reflexivity|].
  rewrite column_length in L0, L1, L2.
  unfold normalize. rewrite !length_map, torch_cross_length.
  - rewrite rows2_length; unfold vec3 in *; lia.
  - rewrite !rows2_length; unfold vec3 in *; lia.
Qed.

Lemma broadcast_ok {X Y W} (f : X -> Y -> W) (xs : list X) (ys : list Y) :
  length xs = length ys ->
  exists zs, broadcast f xs ys = Ok zs /\ length zs = length xs.
Proof.
  intros Hl. unfold broadcast.
  destruct xs as [|x [|x' xs]].
  - destruct ys as [|y ys]; [|discriminate]. now exists [].
  - destruct ys as [|y [|y' ys]]; try discriminate. now exists [f x y].
  - destruct ys as [|y [|y' ys]]; try discriminate.
    destruct (Nat.eqb_spec (length (x :: x' :: xs)) (length (y :: y' :: ys)))
      as [_|Hn]; [|contradiction].
    eexists. split; [reflexivity|].
    rewrite rows2_length; [reflexivity|exact Hl].
Qed.

(** One batch of samples: with indices into the batch's faces and two
    columns of draws of the same length, every row is computed. *)
Lemma sample_on_faces_ok (V : list vec3) (F : list Face)
  (idx : list nat) (r1 r2 : list f32) :
  Forall (valid_face V) F ->
  Forall (fun i => (i < length F)%nat) idx ->
  length r1 = length idx -> length r2 = length idx ->
  exists pts,
    sample_on_faces V F idx r1 r2 = Ok pts /\ length pts = length idx.
Proof.
  intros HF Hidx L1 L2. unfold sample_on_faces.
  destruct (gather_ok F idx Hidx) as (sf & Es & Ls & Hin).
  assert (Hsf : Forall (valid_face V) sf).
  { rewrite Forall_forall in *. auto. }
  destruct (gather_ok V _ (column_valid V 0 sf Hsf)) as (p0 & E0 & L0 & _).
  destruct (gather_ok V _ (column_valid V 1 sf Hsf)) as (p1 & E1 & L1' & _).
  destruct (gather_ok V _ (column_valid V 2 sf Hsf)) as (p2 & E2 & L2' & _).
  rewrite column_length in L0, L1', L2'.
  rewrite Es. cbn [rbind]. rewrite E0. cbn [rbind]. rewrite E1. cbn [rbind].
  rewrite E2. cbn [rbind].
  destruct (broadcast_ok scale (map (f32_sub (as_f32 1)) r1) p0) as (t0 & B0 & M0);
    [rewrite ?length_map; unfold vec3 in *; lia|]. rewrite length_map in M0.
  destruct (broadcast_ok f32_mul r1 (map (f32_sub (as_f32 1)) r2)) as (v & B1 & M1);
    [rewrite ?length_map; unfold vec3 in *; lia|].
  destruct (broadcast_ok scale v p1) as (t1 & B2 & M2); [unfold vec3 in *; lia|].
  destruct (broadcast_ok f32_mul r1 r2) as (w & B3 & M3); [unfold vec3 in *; lia|].
  destruct (broadcast_ok scale w p2) as (t2 & B4 & M4); [unfold vec3 in *; lia|].
  destruct (broadcast_ok (zip3 f32_add) t0 t1) as (s & B5 & M5); [unfold vec3 in *; lia|].
  destruct (broadcast_ok (zip3 f32_add) s t2) as (pts & B6 & M6); [unfold vec3 in *; lia|].
  rewrite B0. cbn [rbind]. rewrite B1. cbn [rbind]. rewrite B2. cbn [rbind].
  rewrite B3. cbn [rbind]. rewrite B4. cbn [rbind]. rewrite B5. cbn [rbind].
  exists pts. split; [exact B6|unfold vec3 in *; lia].
Qed.

(** A batch drawn over the faces [F] with accepted probabilities: the
    asked number of indices and of uniform draws, and as many rows. *)
Lemma batch_drawn (V : list vec3) (F : list Face) (probs : list f32)
  (k : Z) idx r1 r2 g1 g2 :
  Forall (valid_face V) F -> length probs = length F ->
  Py.len idx = k -> Forall (fun i => (i < length probs)%nat) idx ->
  0 <= k ->
  fst (torch_rand k g1) = r1 -> fst (torch_rand k g2) = r2 ->
  exists pts,
    sample_on_faces V F idx (map f32_sqrt r1) r2 = Ok pts /\ Py.len pts = k.
Proof.
  intros HF Hp Hk Hidx Hk0 H1 H2.
  pose proof (torch_rand_len k g1 Hk0) as L1. rewrite H1 in L1.
  pose proof (torch_rand_len k g2 Hk0) as L2. rewrite H2 in L2.
  rewrite Hp in Hidx. unfold Py.len in *.
  destruct (sample_on_faces_ok V F idx (map f32_sqrt r1) r2 HF Hidx)
    as (pts & Hs & Hl); [rewrite length_map; lia|lia|].
  exists pts. split; [exact Hs|lia].
Qed.



End GpuRuns.

Section GpuPass.

Context {E : Externals} (HS : ExternalsSpec E).



Lemma chunk_faces_valid (m : Trimesh) (chunks : list (list Face)) c :
  valid_mesh m -> concat chunks = faces m -> In c chunks ->
  Forall (valid_face (map float32 (vertices m))) c.
Proof.
  unfold valid_mesh. rewrite !Forall_forall. intros Hv Hcat Hin f Hf.
  apply valid_face_map, Hv. rewrite <- Hcat. apply in_concat. eauto.
Qed.


(** The GPU pass of [PointSampler] on a well-formed mesh with faces,
    for a positive number of samples, when [torch.multinomial] accepts
    the probabilities of the mesh: exactly [n] points. *)
Lemma sample_points_on_gpu_run (mesh : Trimesh) (n : Z) (w : World)
  (probs : list f32) :
  valid_mesh mesh -> 0 < n ->
  face_probs_of (map float32 (vertices mesh)) (faces mesh) = Ok probs ->
  accepts probs ->
  returns (PointSampler._sample_points_on_gpu mesh n) w (fun pts w' =>
    num_points pts = n /\
    (exists rows, pts = Float32Points rows) /\
    cuda w' = cuda w).
Proof.
  intros Hvalid Hn Hp Hacc.
  set (V := map float32 (vertices mesh)) in *.
  assert (HF : Forall (valid_face V) (faces mesh)).
  { unfold valid_mesh in Hvalid. rewrite Forall_forall in *.
    intros f Hf. now apply valid_face_map, Hvalid. }
  destruct (face_probs_ok V _ HF) as (probs' & Hp' & Hl).
  assert (probs' = probs) by congruence. subst probs'.
  unfold PointSampler._sample_points_on_gpu, logging, multinomial, rand.
  apply returns_bind, returns_emit.
  apply returns_bind, returns_ret. apply returns_bind, returns_ret.
  rewrite map_long. fold V.
  apply returns_bind, (returns_lift _ probs); [exact Hp|].
  cbn [rng cuda trace].
  set (w1 := {| rng := rng w; cuda := cuda w; trace := _ |}).
  destruct (Hacc n (rng w1) Hn) as (idx & Hi).
  destruct (torch_multinomial_ok _ _ _ _ Hi) as [Li Ri].
  apply returns_bind, (returns_try_draw _ _ _ _ idx Hi).
  apply returns_bind, returns_draw_eq. intros r1 g2 H1. cbn [rng].
  apply returns_bind, returns_draw_eq. intros r2 g3 H2. cbn [rng].
  destruct (batch_drawn HS V (faces mesh) probs n idx r1 r2 _ _ HF Hl Li Ri
              ltac:(lia) (f_equal fst H1) (f_equal fst H2)) as (pts & Hs & Hpl).
  apply returns_bind, (returns_lift _ pts); [exact Hs|].
  apply returns_bind, returns_emit, returns_ret.
  cbn [cuda num_points]. eauto.
Qed.

End GpuPass.

(** The exact-arithmetic instance of [torch.multinomial] accepts the
    probabilities of every non-empty chunk. *)
Lemma fixed_externals_accept (probs : list R) :
  probs <> [] -> @accepts fixed_externals probs.
Proof.
  intros Hne n g Hn. cbn. destruct probs; [congruence|].
  destruct (Z.ltb_spec 0 n); [eauto|lia].
Qed.




(** ** How a pass begins *)

Section Beginnings.

Context {E : Externals}.

Lemma begins_bind_first {A B} P evs (m : M A) (k : A -> M B) w :
  begins evs m w -> (forall a, emits P (k a)) -> begins evs (bind m k) w.
Proof.
  intros (rest & Hm) Hk. unfold begins, bind.
  destruct (m w) as [[a|e] w1]; cbn [snd] in *.
  - destruct (Hk a w1) as (evs' & Ht & _).
    exists (rest ++ evs'). rewrite Ht, Hm, <- !app_assoc. reflexivity.
  - exists rest. exact Hm.
Qed.

Lemma begins_bind_ok {A B} evs1 evs2 (m : M A) (k : A -> M B) w a w' :
  m w = (Ok a, w') -> trace w' = trace w ++ evs1 ->
  begins evs2 (k a) w' -> begins (evs1 ++ evs2) (bind m k) w.
Proof.
  intros Hm Ht (rest & Hk). exists rest.
  rewrite (bind_ok _ _ _ _ _ Hm), Hk, Ht, <- !app_assoc. reflexivity.
Qed.

Lemma begins_try_draw {A} (ev : Event) (f : Rng -> PyResult A * Rng) w :
  begins [ev] (try_draw ev f) w.
Proof.
  exists []. unfold try_draw. destruct (f (rng w)). reflexivity.
Qed.

Lemma begins_gpu_session {A} evs (body : M A) w :
  begins evs body
    {| rng := rng w; cuda := cuda w; trace := trace w ++ [GpuSessionEnter] |} ->
  begins (GpuSessionEnter :: evs) (gpu_session body) w.
Proof.
  intros (rest & Hb). exists (rest ++ [GpuSessionExit]).
  unfold gpu_session, emit.
  destruct (body _) as [r w2]. cbn [snd trace] in *.
  rewrite Hb. rewrite <- !app_assoc. reflexivity.
Qed.

Lemma emits_anything {A} P (m : M A) : emits P m -> emits (fun _ => true) m.
Proof. apply emits_weaken. reflexivity. Qed.

(** The GPU pass of the handler on a well-formed mesh with faces, for
    any number of samples: it enters the session, uploads the vertices
    and the first chunk of faces and asks [torch.multinomial] for that
    chunk's share, whatever happens next. *)
Lemma sample_points_gpu_begins (m : Trimesh) (cs n : Z) (w : World) :
  valid_mesh m -> faces m <> [] -> 0 < cs ->
  exists c chunks probs,
    stream_faces (loaded m cs) = Ok (c :: chunks) /\
    face_probs_of (map float32 (vertices m)) c = Ok probs /\
    begins [GpuSessionEnter;
            AllocateGpuTensor (Py.len (vertices m));
            AllocateGpuTensor (Py.len c);
            Multinomial probs (n / Py.len (faces m) * Py.len c)]
      (_sample_points_gpu (loaded m cs) n) w.
Proof.
  intros Hvalid Hne Hcs.
  destruct (stream_faces_loaded m cs Hcs) as (chunks0 & Hs & Hcat & Hch & _).
  destruct chunks0 as [|c chunks]; [now contradiction (Hch Hne)|].
  pose proof (chunk_faces_valid m (c :: chunks) c Hvalid Hcat (or_introl eq_refl)) as HF.
  destruct (face_probs_ok _ c HF) as (probs & Hp & _).
  exists c, chunks, probs. split; [exact Hs|]. split; [exact Hp|].
  destruct (floordiv_total_faces m cs n Hne) as [Hdiv Hmod].
  set (V := map float32 (vertices m)) in *.
  unfold _sample_points_gpu.
  apply (begins_bind_ok [] _ _ _ w _ w (f_equal (fun r => (r, w)) Hdiv));
    [now rewrite app_nil_r|].
  apply (begins_bind_ok [] _ _ _ w _ w (f_equal (fun r => (r, w)) Hmod));
    [now rewrite app_nil_r|].
  apply (begins_bind_first (fun _ => true)).
  2:{ intros rows. apply emits_bind; [apply emits_lift|]. intros. apply emits_ret. }
  apply begins_gpu_session.
  set (w1 := {| rng := rng w; cuda := cuda w; trace := trace w ++ [GpuSessionEnter] |}).
  apply (begins_bind_ok [] _ _ _ w1 (vertices m) w1); [reflexivity|now rewrite app_nil_r|].
  apply (begins_bind_ok [AllocateGpuTensor (Py.len (vertices m))] _ _ _ w1 V
           {| rng := rng w1; cuda := cuda w1;
              trace := trace w1 ++ [AllocateGpuTensor (Py.len (vertices m))] |});
    [reflexivity|reflexivity|].
  set (w2 := {| rng := rng w1; cuda := cuda w1; trace := _ |}).
  apply (begins_bind_ok [] _ _ _ w2 (c :: chunks) w2);
    [now rewrite lift_run, Hs|now rewrite app_nil_r|].
  apply (begins_bind_first (fun _ => true)).
  2:{ intros st. eapply emits_anything, emits_gpu_remainder. }
  cbn [foldM].
  apply (begins_bind_first (fun _ => true)).
  2:{ intros st. eapply emits_anything, emits_foldM. intros. apply emits_gpu_chunk. }
  unfold gpu_chunk.
  apply (begins_bind_ok [AllocateGpuTensor (Py.len c)] _ _ _ w2 c
           {| rng := rng w2; cuda := cuda w2;
              trace := trace w2 ++ [AllocateGpuTensor (Py.len c)] |}).
  { unfold allocate_gpu_tensor, bind. cbn [emit ret]. now rewrite map_long. }
  { reflexivity. }
  set (w3 := {| rng := rng w2; cuda := cuda w2; trace := _ |}).
  apply (begins_bind_ok [] _ _ _ w3 probs w3);
    [now rewrite lift_run, Hp|now rewrite app_nil_r|].
  apply (begins_bind_first (fun _ => true)).
  - apply begins_try_draw.
  - intros idx.
    apply emits_bind; [now apply emits_draw|]. intros r1.
    apply emits_bind; [now apply emits_draw|]. intros r2.
    apply emits_bind; [apply emits_lift|]. intros pts. apply emits_ret.
Qed.

(** The GPU pass of [PointSampler] on a well-formed mesh: after its
    progress line it asks [torch.multinomial] for the samples, whatever
    happens next. *)
Lemma sample_points_on_gpu_begins (mesh : Trimesh) (n : Z) (w : World) :
  valid_mesh mesh ->
  exists probs,
    face_probs_of (map float32 (vertices mesh)) (faces mesh) = Ok probs /\
    begins [Log INFO "Sampling points from the 3D model using GPU...";
            Multinomial probs n]
      (PointSampler._sample_points_on_gpu mesh n) w.
Proof.
  intros Hvalid.
  set (V := map float32 (vertices mesh)).
  assert (HF : Forall (valid_face V) (faces mesh)).
  { unfold valid_mesh in Hvalid. rewrite Forall_forall in *.
    intros f Hf. now apply valid_face_map, Hvalid. }
  destruct (face_probs_ok V _ HF) as (probs & Hp & _).
  exists probs. split; [exact Hp|].
  unfold PointSampler._sample_points_on_gpu, logging.
  set (w1 := {| rng := rng w; cuda := cuda w;
                trace := trace w
                  ++ [Log INFO "Sampling points from the 3D model using GPU..."] |}).
  apply (begins_bind_ok [Log INFO "Sampling points from the 3D model using GPU..."]
           _ _ _ w tt w1); [reflexivity|reflexivity|].
  apply (begins_bind_ok [] _ _ _ w1 V w1); [reflexivity|now rewrite app_nil_r|].
  apply (begins_bind_ok [] _ _ _ w1 (faces mesh) w1);
    [unfold ret; now rewrite map_long|now rewrite app_nil_r|].
  apply (begins_bind_ok [] _ _ _ w1 probs w1);
    [now rewrite lift_run, Hp|now rewrite app_nil_r|].
  apply (begins_bind_first (fun _ => true)).
  - apply begins_try_draw.
  - intros idx.
    apply emits_bind; [now apply emits_draw|]. intros r1.
    apply emits_bind; [now apply emits_draw|]. intros r2.
    apply emits_bind; [apply emits_lift|]. intros pts.
    apply emits_bind; [now apply emits_emit|]. intros. apply emits_ret.
Qed.

End Beginnings.

(** C7, as the code has it.  For [num_samples = 0] on a well-formed mesh
    with faces no sampler skips its work.  The pool pass returns an empty
    batch after submitting one task of 0 points per worker.  The chunked
    CPU pass calls its drawing primitive once per face chunk, asking for
    0 points.  The GPU pass of the handler enters the device session,
    uploads the vertices and the first chunk of faces and asks
    [torch.multinomial] for 0 indices, and the GPU pass of [PointSampler]
    asks it for 0 indices after its progress line.  What the chunked and
    the GPU passes do after these calls is not stated here. *)
Theorem zero_samples_still_work {E : Externals} (HS : ExternalsSpec E)
  (m : Trimesh) (cs t : Z) (w : World) :
  valid_mesh m -> faces m <> [] -> 0 < cs -> 0 < t ->
  (exists w',
     PointSampler._sample_points_on_cpu m 0 t w = (Ok (Float64Points []), w') /\
     filter is_submit (skipn (length (trace w)) (trace w'))
     = repeat (Submit 0) (Z.to_nat t)) /\
  (exists chunks,
     stream_faces (loaded m cs) = Ok chunks /\ chunks <> [] /\
     trace (snd (_sample_points_cpu (loaded m cs) 0 w))
     = trace w
         ++ map (fun c => SampleSurfaceEven (mkTrimesh (vertices m) c) 0) chunks) /\
  (exists c probs rest,
     face_probs_of (map float32 (vertices m)) c = Ok probs /\
     trace (snd (_sample_points_gpu (loaded m cs) 0 w))
     = trace w
         ++ [GpuSessionEnter;
             AllocateGpuTensor (Py.len (vertices m));
             AllocateGpuTensor (Py.len c);
             Multinomial probs 0]
         ++ rest) /\
  (exists probs rest,
     face_probs_of (map float32 (vertices m)) (faces m) = Ok probs /\
     trace (snd (PointSampler._sample_points_on_gpu m 0 w))
     = trace w
         ++ [Log INFO "Sampling points from the 3D model using GPU...";
             Multinomial probs 0]
         ++ rest).
Proof.
  intros Hvalid Hne Hcs Ht.
  assert (Hnil : forall pts : list Point, Py.len pts = 0 -> pts = []).
  { intros [|p pts]; [reflexivity|]. unfold Py.len. simpl. lia. }
  split; [|split; [|split]].
  - destruct (sample_points_on_cpu_run m 0 t w HS Hvalid Hne Ht)
      as (pts & w' & Hrun & Htr & _ & (rows & ->) & Hlen).
    exists w'. rewrite (Hnil rows) in Hrun by (apply Hlen; lia).
    split; [exact Hrun|].
    rewrite Htr, skipn_app, skipn_all, Nat.sub_diag. cbn [skipn app].
    unfold pool_events. rewrite Zmod_0_l, Zdiv_0_l. cbn [Z.ltb Z.compare app].
    cbn [filter is_submit]. rewrite filter_app.
    cbn [filter is_submit]. rewrite app_nil_r.
    induction (Z.to_nat t) as [|k IH]; [reflexivity|].
    cbn [repeat concat app filter is_submit]. now rewrite IH.
  - destruct (stream_faces_loaded m cs Hcs) as (chunks & Hs & _ & Hch & _).
    exists chunks. split; [exact Hs|]. split; [now apply Hch|].
    destruct (sample_points_cpu_run m cs 0 w chunks Hne Hs)
      as (e & w' & Hrun & _ & Htr & _).
    rewrite Hrun. cbn [snd]. rewrite Htr. unfold cpu_events.
    rewrite Zmod_0_l, Zdiv_0_l. cbn [Z.ltb Z.compare]. now rewrite app_nil_r.
  - destruct (sample_points_gpu_begins m cs 0 w Hvalid Hne Hcs)
      as (c & chunks & probs & _ & Hp & rest & Htr).
    exists c, probs, rest. split; [exact Hp|].
    rewrite Htr, Zdiv_0_l. reflexivity.
  - destruct (sample_points_on_gpu_begins m 0 w Hvalid)
      as (probs & Hp & rest & Htr).
    exists probs, rest. split; [exact Hp|exact Htr].
Qed.

Lemma zero_samples_still_work_witness :
  ExternalsSpec fixed_externals /\
  valid_mesh square /\ faces square <> [] /\ 0 < 1 /\ 0 < 2 /\
  (exists w',
     PointSampler._sample_points_on_cpu square 0 2 (start false)
     = (Ok (Float64Points []), w') /\
     filter is_submit (skipn (length (trace (start false))) (trace w'))
     = repeat (Submit 0) (Z.to_nat 2)) /\
  (exists chunks,
     stream_faces (loaded square 1) = Ok chunks /\ chunks <> [] /\
     trace (snd (_sample_points_cpu (loaded square 1) 0 (start false)))
     = trace (start false)
         ++ map (fun c => SampleSurfaceEven (mkTrimesh (vertices square) c) 0)
              chunks) /\
  (exists c probs rest,
     face_probs_of (map float32 (vertices square)) c = Ok probs /\
     trace (snd (_sample_points_gpu (loaded square 1) 0 (start false)))
     = trace (start false)
         ++ [GpuSessionEnter;
             AllocateGpuTensor (Py.len (vertices square));
             AllocateGpuTensor (Py.len c);
             Multinomial probs 0]
         ++ rest) /\
  (exists probs rest,
     face_probs_of (map float32 (vertices square)) (faces square) = Ok probs /\
     trace (snd (PointSampler._sample_points_on_gpu square 0 (start false)))
     = trace (start false)
         ++ [Log INFO "Sampling points from the 3D model using GPU...";
             Multinomial probs 0]
         ++ rest).
Proof.
  split; [exact fixed_externals_spec|]. split; [exact valid_mesh_square|].
  split; [discriminate|]. split; [lia|]. split; [lia|].
  apply (zero_samples_still_work fixed_externals_spec square 1 2 (start false));
    [exact valid_mesh_square|discriminate|lia|lia].
Defined.

(** C7 as stated fails: asked for 0 samples on 2 threads, the pool pass
    submits 2 worker tasks. *)
Lemma zero_samples_submit_tasks :
  filter is_submit
    (trace (snd (PointSampler._sample_points_on_cpu square 0 2 (start false))))
  = [Submit 0; Submit 0].
Proof. reflexivity. Qed.

(** * Further properties of the streamer *)

Section ChunkIndex.

Context {A : Type}.

(** Element [i] of the buffer is element [i mod cs] of chunk [i div cs]. *)
Lemma cut_lookup (c fuel : nat) (xs : list A) (i : nat) :
  (0 < c)%nat -> (i < length xs)%nat -> (length xs <= fuel * c)%nat ->
  nth_error (nth (i / c) (cut fuel c xs) []) (i mod c) = nth_error xs i.
Proof.
  intros Hc Hi Hlen.
  pose proof (Nat.div_mod_eq i c) as Hdm.
  pose proof (Nat.mod_upper_bound i c ltac:(lia)) as Hm.
  assert (Hk : (i / c < fuel)%nat).
  { apply Nat.Div0.div_lt_upper_bound. nia. }
  rewrite cut_nth by assumption.
  rewrite nth_error_firstn.
  destruct (Nat.ltb_spec (i mod c) c) as [_|]; [|lia].
  rewrite nth_error_skipn. f_equal. nia.
Qed.

Lemma stream_chunks_lookup (xs : list A) (cs : Z) (i : nat) :
  0 < cs -> (i < length xs)%nat ->
  exists chunks,
    stream_chunks (Py.len xs) cs (Ok xs) = Ok chunks /\
    nth_error (nth (i / Z.to_nat cs) chunks []) (i mod Z.to_nat cs)
    = nth_error xs i.
Proof.
  intros Hcs Hi. eexists. split; [now apply stream_chunks_cut|].
  assert (Hn : 0 <= Py.len xs) by (unfold Py.len; lia).
  destruct (ceil_div_bounds (Py.len xs) cs Hn Hcs) as [Hc0 Hc].
  unfold Py.len in *. apply cut_lookup; nia.
Qed.

(** A chunk size that reaches the end of a non-empty buffer gives the
    buffer back as the only chunk. *)
Lemma stream_chunks_single (xs : list A) (cs : Z) :
  xs <> [] -> Py.len xs <= cs ->
  stream_chunks (Py.len xs) cs (Ok xs) = Ok [xs].
Proof.
  intros Hne Hcs.
  assert (Hpos : 0 < Py.len xs).
  { unfold Py.len. destruct xs; [congruence|simpl; lia]. }
  rewrite stream_chunks_cut by lia.
  assert (Hone : ceil_div (Py.len xs) cs = 1).
  { unfold ceil_div.
    replace (Py.len xs + cs - 1) with (1 * cs + (Py.len xs - 1)) by lia.
    rewrite Z.div_add_l, Z.div_small by lia. lia. }
  rewrite Hone. change (Z.to_nat 1) with 1%nat. cbn [cut].
  rewrite firstn_all2; [reflexivity|]. unfold Py.len in *. lia.
Qed.

End ChunkIndex.

(** X1. Streaming keeps positions: for a positive [chunk_size], element
    [i] of the vertex buffer is element [i mod chunk_size] of the streamed
    chunk number [i div chunk_size], and likewise element [j] of the face
    buffer. *)
Theorem stream_positions (m : Trimesh) (cs : Z) (i j : nat) :
  0 < cs -> (i < length (vertices m))%nat -> (j < length (faces m))%nat ->
  (exists chunks,
     stream_vertices (loaded m cs) = Ok chunks /\
     nth_error (nth (i / Z.to_nat cs) chunks []) (i mod Z.to_nat cs)
     = nth_error (vertices m) i) /\
  (exists chunks,
     stream_faces (loaded m cs) = Ok chunks /\
     nth_error (nth (j / Z.to_nat cs) chunks []) (j mod Z.to_nat cs)
     = nth_error (faces m) j).
Proof.
  intros Hcs Hi Hj. split.
  - apply (stream_chunks_lookup (vertices m) cs i Hcs Hi).
  - apply (stream_chunks_lookup (faces m) cs j Hcs Hj).
Qed.

Lemma stream_positions_witness :
  0 < 2 /\
  (3 < length (vertices square))%nat /\ (1 < length (faces square))%nat /\
  (exists chunks,
     stream_vertices (loaded square 2) = Ok chunks /\
     nth_error (nth (3 / Z.to_nat 2) chunks []) (3 mod Z.to_nat 2)
     = nth_error (vertices square) 3) /\
  (exists chunks,
     stream_faces (loaded square 2) = Ok chunks /\
     nth_error (nth (1 / Z.to_nat 2) chunks []) (1 mod Z.to_nat 2)
     = nth_error (faces square) 1).
Proof.
  split; [lia|]. split; [simpl; lia|]. split; [simpl; lia|].
  apply (stream_positions square 2 3 1); [lia|simpl; lia|simpl; lia].
Defined.

(** X2. A [chunk_size] of at least the length of a non-empty buffer
    streams exactly one chunk, the whole buffer. *)
Theorem stream_one_chunk (m : Trimesh) (cs : Z) :
  vertices m <> [] -> faces m <> [] ->
  Py.len (vertices m) <= cs -> Py.len (faces m) <= cs ->
  stream_vertices (loaded m cs) = Ok [vertices m] /\
  stream_faces (loaded m cs) = Ok [faces m].
Proof.
  intros Hv Hf Hcv Hcf. split.
  - apply (stream_chunks_single (vertices m) cs Hv Hcv).
  - apply (stream_chunks_single (faces m) cs Hf Hcf).
Qed.

Lemma stream_one_chunk_witness :
  vertices square <> [] /\ faces square <> [] /\
  Py.len (vertices square) <= 9 /\ Py.len (faces square) <= 9 /\
  stream_vertices (loaded square 9) = Ok [vertices square] /\
  stream_faces (loaded square 9) = Ok [faces square].
Proof.
  split; [discriminate|]. split; [discriminate|].
  split; [cbn; lia|]. split; [cbn; lia|].
  apply (stream_one_chunk square 9); [discriminate|discriminate|cbn; lia|cbn; lia].
Defined.

(** X3. A handler that was constructed but never loaded has no mesh and
    zero counts: with a non-zero [chunk_size] its streams yield nothing
    and [calculate_bounding_box] returns the initial infinite extrema
    without touching the missing mesh; both sampling passes fail with the
    [ZeroDivisionError] of the division by [total_faces], leaving the
    world as it was. *)
Theorem unloaded_handler {E : Externals} (cs n : Z) (w : World) :
  cs <> 0 ->
  stream_vertices (init cs) = Ok [] /\
  stream_faces (init cs) = Ok [] /\
  calculate_bounding_box (init cs) = Ok (inf3, neg_inf3) /\
  _sample_points_cpu (init cs) n w = (Raise ZeroDivisionError, w) /\
  _sample_points_gpu (init cs) n w = (Raise ZeroDivisionError, w).
Proof.
  intros Hcs.
  assert (Hs : forall B (buf : PyResult (list B)), stream_chunks 0 cs buf = Ok []).
  { intros B buf. unfold stream_chunks, Py.range.
    destruct (Z.eqb_spec cs 0); [contradiction|].
    now rewrite range_empty_stop. }
  split; [apply Hs|]. split; [apply Hs|]. split.
  - unfold calculate_bounding_box, stream_vertices. cbn [init total_vertices chunk_size].
    now rewrite Hs.
  - split; reflexivity.
Qed.

Lemma unloaded_handler_witness :
  1000000 <> 0 /\
  stream_vertices (init 1000000) = Ok [] /\
  stream_faces (init 1000000) = Ok [] /\
  calculate_bounding_box (init 1000000) = Ok (inf3, neg_inf3) /\
  _sample_points_cpu (init 1000000) 10000 (start false)
  = (Raise ZeroDivisionError, start false) /\
  _sample_points_gpu (init 1000000) 10000 (start false)
  = (Raise ZeroDivisionError, start false).
Proof.
  split; [lia|]. apply (unloaded_handler 1000000 10000 (start false)). lia.
Defined.

(** * Further properties of the bounding box *)

Section BoxShape.

Lemma np_minimum_inf3 (v : Vertex) : np_minimum inf3 (fin3 v) = fin3 v.
Proof. now destruct v as [[? ?] ?]. Qed.

Lemma np_maximum_neg_inf3 (v : Vertex) : np_maximum neg_inf3 (fin3 v) = fin3 v.
Proof. now destruct v as [[? ?] ?]. Qed.

(** The box of a non-empty buffer is the pair of whole-buffer reductions. *)
Lemma box_of_cons (v : Vertex) (vs : list Vertex) :
  box_of (v :: vs)
  = (fin3 (fold_left (zip3 Rmin) vs v), fin3 (fold_left (zip3 Rmax) vs v)).
Proof.
  unfold box_of. cbn [fold_left]. unfold extend_box at 2. cbn [fst snd].
  rewrite fold_extend_box, <- reduce_min, <- reduce_max.
  now rewrite np_minimum_inf3, np_maximum_neg_inf3.
Qed.

Lemma coord_zip3 (f : R -> R -> R) (k : nat) (v w : Vertex) :
  coord k (zip3 f v w) = f (coord k v) (coord k w).
Proof.
  destruct v as [[? ?] ?], w as [[? ?] ?].
  destruct k as [|[|k]]; reflexivity.
Qed.

(** A reduction by an operation that returns one of its arguments picks
    every coordinate from some row. *)
Lemma reduce_attained (f : R -> R -> R) (k : nat) (vs : list Vertex) (v : Vertex) :
  (forall a b, f a b = a \/ f a b = b) ->
  exists a, In a (v :: vs) /\ coord k a = coord k (fold_left (zip3 f) vs v).
Proof.
  intros Hf. revert v. induction vs as [|w vs IH]; intros v.
  - exists v. split; [now left|reflexivity].
  - cbn [fold_left]. destruct (IH (zip3 f v w)) as (a & [<-|Hin] & Ha).
    + rewrite coord_zip3 in Ha.
      destruct (Hf (coord k v) (coord k w)) as [E|E]; rewrite E in Ha.
      * exists v. split; [now left|exact Ha].
      * exists w. split; [right; now left|exact Ha].
    + exists a. split; [right; now right|exact Ha].
Qed.

Lemma Rmin_either (a b : R) : Rmin a b = a \/ Rmin a b = b.
Proof. unfold Rmin. destruct (Rle_dec a b); auto. Qed.

Lemma Rmax_either (a b : R) : Rmax a b = a \/ Rmax a b = b.
Proof. unfold Rmax. destruct (Rle_dec a b); auto. Qed.

Lemma xmin_comm (a b : xreal) : xmin a b = xmin b a.
Proof. destruct a, b; simpl; try reflexivity. now rewrite Rmin_comm. Qed.

Lemma xmax_comm (a b : xreal) : xmax a b = xmax b a.
Proof. destruct a, b; simpl; try reflexivity. now rewrite Rmax_comm. Qed.

Lemma np_minimum_comm (a b : xvec3) : np_minimum a b = np_minimum b a.
Proof.
  destruct a as [[a0 a1] a2], b as [[b0 b1] b2]. unfold np_minimum. simpl.
  now rewrite (xmin_comm a0), (xmin_comm a1), (xmin_comm a2).
Qed.

Lemma np_maximum_comm (a b : xvec3) : np_maximum a b = np_maximum b a.
Proof.
  destruct a as [[a0 a1] a2], b as [[b0 b1] b2]. unfold np_maximum. simpl.
  now rewrite (xmax_comm a0), (xmax_comm a1), (xmax_comm a2).
Qed.

Lemma extend_box_swap box v w :
  extend_box (extend_box box v) w = extend_box (extend_box box w) v.
Proof.
  unfold extend_box. cbn [fst snd]. f_equal.
  - rewrite <- !np_minimum_assoc. f_equal. apply np_minimum_comm.
  - rewrite <- !np_maximum_assoc. f_equal. apply np_maximum_comm.
Qed.

Lemma fold_extend_box_perm (vs vs' : list Vertex) :
  Permutation vs vs' ->
  forall box, fold_left extend_box vs box = fold_left extend_box vs' box.
Proof.
  induction 1 as [|x l l' _ IH|x y l|l l' l'' _ IH1 _ IH2]; intros box; cbn [fold_left].
  - reflexivity.
  - apply IH.
  - now rewrite extend_box_swap.
  - now rewrite IH1.
Qed.

End BoxShape.

(** X4. For a non-empty vertex buffer and a positive [chunk_size] the
    streamed bounding box is finite and is the whole-buffer [np.min] and
    [np.max] along axis 0; it contains every vertex, and it is tight:
    each coordinate of either corner is that coordinate of some vertex. *)
Theorem bounding_box_tight (m : Trimesh) (cs : Z) :
  vertices m <> [] -> 0 < cs ->
  exists lo hi : Vertex,
    np_min_axis0 (vertices m) = Ok lo /\
    np_max_axis0 (vertices m) = Ok hi /\
    calculate_bounding_box (loaded m cs) = Ok (fin3 lo, fin3 hi) /\
    (forall v, In v (vertices m) -> in_box (fin3 lo, fin3 hi) v) /\
    (forall k, exists a b,
       In a (vertices m) /\ In b (vertices m) /\
       coord k a = coord k lo /\ coord k b = coord k hi).
Proof.
  intros Hne Hcs.
  pose proof (calculate_bounding_box_loaded m cs Hcs) as Hbox.
  destruct (vertices m) as [|v vs] eqn:HV; [congruence|].
  rewrite box_of_cons in Hbox.
  exists (fold_left (zip3 Rmin) vs v), (fold_left (zip3 Rmax) vs v).
  split; [reflexivity|]. split; [reflexivity|]. split; [exact Hbox|]. split.
  - intros x Hx. rewrite <- box_of_cons. now apply box_of_contains.
  - intros k.
    destruct (reduce_attained Rmin k vs v Rmin_either) as (a & Ia & Ha).
    destruct (reduce_attained Rmax k vs v Rmax_either) as (b & Ib & Hb).
    exists a, b. auto.
Qed.

Lemma bounding_box_tight_witness :
  vertices square <> [] /\ 0 < 3 /\
  exists lo hi : Vertex,
    np_min_axis0 (vertices square) = Ok lo /\
    np_max_axis0 (vertices square) = Ok hi /\
    calculate_bounding_box (loaded square 3) = Ok (fin3 lo, fin3 hi) /\
    (forall v, In v (vertices square) -> in_box (fin3 lo, fin3 hi) v) /\
    (forall k, exists a b,
       In a (vertices square) /\ In b (vertices square) /\
       coord k a = coord k lo /\ coord k b = coord k hi).
Proof.
  split; [discriminate|]. split; [lia|].
  apply (bounding_box_tight square 3); [discriminate|lia].
Defined.

(** X5. The bounding box does not depend on the order of the vertices:
    two meshes whose vertex buffers are permutations of each other get
    equal boxes, whatever positive chunk sizes they are streamed with. *)
Theorem bounding_box_order_free (m m' : Trimesh) (cs cs' : Z) :
  Permutation (vertices m) (vertices m') -> 0 < cs -> 0 < cs' ->
  calculate_bounding_box (loaded m cs) = calculate_bounding_box (loaded m' cs').
Proof.
  intros Hperm Hcs Hcs'.
  rewrite !calculate_bounding_box_loaded by assumption.
  f_equal. unfold box_of. now apply fold_extend_box_perm.
Qed.

Lemma bounding_box_order_free_witness :
  Permutation (vertices square)
    (vertices (mkTrimesh (rev (vertices square)) (faces square))) /\
  0 < 1 /\ 0 < 4 /\
  calculate_bounding_box (loaded square 1)
  = calculate_bounding_box
      (loaded (mkTrimesh (rev (vertices square)) (faces square)) 4).
Proof.
  split; [apply Permutation_rev|]. split; [lia|]. split; [lia|].
  apply (bounding_box_order_free square
           (mkTrimesh (rev (vertices square)) (faces square)) 1 4);
    [apply Permutation_rev|lia|lia].
Defined.

(** * Sampling with out-of-range configuration *)

Section BadConfiguration.

Context {E : Externals}.

Lemma stream_faces_negative (m : Trimesh) (cs : Z) :
  cs < 0 -> stream_faces (loaded m cs) = Ok [].
Proof.
  intros Hcs.
  pose proof (stream_chunks_nonpositive (faces m) cs ltac:(lia)) as Hs.
  destruct (Z.eqb_spec cs 0); [lia|]. exact Hs.
Qed.

End BadConfiguration.

(** X6. With a negative [chunk_size] the handler's CPU pass streams no
    chunk and always fails with a [ValueError] of [np.vstack]: when
    [num_samples mod total_faces] is positive, after the one draw of that
    remainder over the whole mesh, whose [(points, face_index)] pair
    it hands to [np.vstack]; when the remainder is zero, without any
    draw, on the empty list of batches. *)
Theorem cpu_pass_negative_chunk_size {E : Externals}
  (m : Trimesh) (cs n : Z) (w : World) :
  faces m <> [] -> cs < 0 ->
  exists msg w',
    _sample_points_cpu (loaded m cs) n w = (Raise (ValueError msg), w') /\
    trace w'
    = trace w ++ (if 0 <? n mod Py.len (faces m)
                  then [SampleSurfaceEven m (n mod Py.len (faces m))]
                  else []) /\
    (n mod Py.len (faces m) = 0 ->
     msg = "need at least one array to concatenate"%string).
Proof.
  intros Hne Hcs.
  pose proof (stream_faces_negative m cs Hcs) as Hs.
  destruct (sample_points_cpu_run m cs n w [] Hne Hs)
    as (e & w' & Hrun & (samples & Hv & Hlen) & Htr & _).
  destruct (np_vstack_pairs_raises samples) as (msg & Hmsg).
  assert (e = ValueError msg) by congruence. subst e.
  exists msg, w'. split; [exact Hrun|]. split; [exact Htr|].
  intros Hrem. rewrite Hrem in Hlen. cbn in Hlen.
  destruct samples; [|discriminate]. cbn in Hmsg. congruence.
Qed.

Lemma cpu_pass_negative_chunk_size_witness :
  faces square <> [] /\ -1 < 0 /\
  exists msg w',
    _sample_points_cpu (loaded square (-1)) 5 (start false)
    = (Raise (ValueError msg), w') /\
    trace w'
    = trace (start false)
        ++ (if 0 <? 5 mod Py.len (faces square)
            then [SampleSurfaceEven square (5 mod Py.len (faces square))]
            else []) /\
    (5 mod Py.len (faces square) = 0 ->
     msg = "need at least one array to concatenate"%string).
Proof.
  split; [discriminate|]. split; [lia|].
  apply (cpu_pass_negative_chunk_size square (-1) 5 (start false));
    [discriminate|lia].
Defined.

(** X7. With a negative [chunk_size] the handler's GPU pass never
    binds [face_probs]: inside the session it uploads the vertices,
    streams no chunk and draws nothing, then fails -- with
    [UnboundLocalError] when the remainder is positive, otherwise in
    [np.vstack] on the empty list of batches -- after the session was
    left. *)
Theorem gpu_pass_negative_chunk_size {E : Externals}
  (m : Trimesh) (cs n : Z) (w : World) :
  faces m <> [] -> cs < 0 ->
  _sample_points_gpu (loaded m cs) n w
  = (Raise (if 0 <? n mod Py.len (faces m)
            then UnboundLocalError
            else ValueError "need at least one array to concatenate"),
     {| rng := rng w; cuda := cuda w;
        trace := trace w ++ [GpuSessionEnter;
                             AllocateGpuTensor (Py.len (vertices m));
                             GpuSessionExit] |}).
Proof.
  intros Hne Hcs.
  pose proof (stream_faces_negative m cs Hcs) as Hs.
  destruct (floordiv_total_faces m cs n Hne) as [Hdiv Hmod].
  set (rem := n mod Py.len (faces m)) in *.
  set (w1 := {| rng := rng w; cuda := cuda w;
                trace := trace w ++ [GpuSessionEnter] |}).
  set (w2 := {| rng := rng w; cuda := cuda w;
                trace := (trace w ++ [GpuSessionEnter])
                           ++ [AllocateGpuTensor (Py.len (vertices m))] |}).
  unfold _sample_points_gpu.
  rewrite (bind_ok _ _ w _ w (f_equal (fun r => (r, w)) Hdiv)).
  rewrite (bind_ok _ _ w _ w (f_equal (fun r => (r, w)) Hmod)).
  assert (Hup : allocate_gpu_tensor (vertices m) float32 w1
                = (Ok (map float32 (vertices m)), w2))
    by reflexivity.
  assert (Hloop : forall V st,
    bind (lift (stream_faces (loaded m cs)))
      (fun chunks => bind (foldM (gpu_chunk V (n / Py.len (faces m))) chunks st)
                       (gpu_remainder V rem)) w2
    = gpu_remainder V rem st w2).
  { intros V st. rewrite (bind_ok _ _ w2 [] w2) by (now rewrite lift_run, Hs).
    reflexivity. }
  replace (trace w ++ [GpuSessionEnter; AllocateGpuTensor (Py.len (vertices m));
                       GpuSessionExit])
    with (trace w2 ++ [GpuSessionExit])
    by (unfold w2; cbn [trace]; now rewrite <- !app_assoc).
  destruct (0 <? rem) eqn:Hrem.
  - erewrite bind_raise; [reflexivity|].
    apply (gpu_session_run _ w (Raise UnboundLocalError) w2).
    rewrite (bind_ok _ _ w1 (vertices m) w1) by reflexivity.
    rewrite (bind_ok _ _ w1 _ w2 Hup), Hloop.
    unfold gpu_remainder. rewrite Hrem. reflexivity.
  - erewrite bind_ok.
    2:{ apply (gpu_session_run _ w (Ok []) w2).
        rewrite (bind_ok _ _ w1 (vertices m) w1) by reflexivity.
        rewrite (bind_ok _ _ w1 _ w2 Hup), Hloop.
        unfold gpu_remainder. rewrite Hrem. reflexivity. }
    reflexivity.
Qed.

Lemma gpu_pass_negative_chunk_size_witness :
  faces square <> [] /\ -1 < 0 /\
  _sample_points_gpu (loaded square (-1)) 5 (start true)
  = (Raise UnboundLocalError,
     @mkWorld fixed_externals tt true
       [GpuSessionEnter; AllocateGpuTensor 4; GpuSessionExit]).
Proof.
  split; [discriminate|]. split; [lia|].
  apply (gpu_pass_negative_chunk_size square (-1) 5 (start true));
    [discriminate|lia].
Defined.

(** X8. With a non-positive thread count the pool pass of
    [PointSampler] fails after its first progress line and before any
    task is submitted: with [ZeroDivisionError] for 0 threads (the
    division by [num_threads]), and with the [ValueError] of
    [ThreadPoolExecutor] for a negative count. *)
Theorem pool_pass_without_threads {E : Externals}
  (mesh : Trimesh) (n t : Z) (w : World) :
  t <= 0 ->
  PointSampler._sample_points_on_cpu mesh n t w
  = (Raise (if t =? 0 then ZeroDivisionError
            else ValueError "max_workers must be greater than 0"),
     {| rng := rng w; cuda := cuda w;
        trace := trace w
          ++ [Log INFO "Sampling points from the 3D model using CPU with threads..."] |}).
Proof.
  intros Ht. unfold PointSampler._sample_points_on_cpu, logging.
  unfold Py.floordiv, Py.mod_, PointSampler.thread_pool_executor.
  unfold bind at 1. cbn [emit].
  destruct (Z.eqb_spec t 0) as [->|Hz]; [reflexivity|].
  unfold bind at 1 2 3. cbn [lift].
  destruct (Z.leb_spec t 0); [reflexivity|lia].
Qed.

Lemma pool_pass_without_threads_witness :
  -2 <= 0 /\
  PointSampler._sample_points_on_cpu square 5 (-2) (start false)
  = (Raise (ValueError "max_workers must be greater than 0"),
     @mkWorld fixed_externals tt false
       [Log INFO "Sampling points from the 3D model using CPU with threads..."]).
Proof.
  split; [lia|].
  apply (pool_pass_without_threads square 5 (-2) (start false)). lia.
Defined.

(** * The orchestrators, end to end *)

Section Orchestrators.

Context {E : Externals} (HS : ExternalsSpec E).

Lemma filter_none (P Q : Event -> bool) (evs : list Event) :
  forallb P evs = true ->
  (forall ev, P ev = true -> Q ev = false) ->
  filter Q evs = [].
Proof.
  intros HP HPQ. induction evs as [|ev evs IH]; [reflexivity|].
  cbn [forallb] in HP. apply andb_true_iff in HP as [H1 H2].
  cbn [filter]. now rewrite (HPQ ev H1), IH.
Qed.





Lemma device_op_not_submit ev :
  is_device_op ev || is_info ev = true -> is_submit ev = false.
Proof. now destruct ev. Qed.

(** The handler's CPU pass from any world: it fails in [np.vstack],
    having added only CPU draws to the trace. *)
Lemma cpu_pass_summary (m : Trimesh) (cs n : Z) (w : World) :
  faces m <> [] -> 0 < cs ->
  exists msg w' evs,
    _sample_points_cpu (loaded m cs) n w = (Raise (ValueError msg), w') /\
    trace w' = trace w ++ evs /\
    forallb is_cpu_draw evs = true.
Proof.
  intros Hne Hcs.
  destruct (stream_faces_loaded m cs Hcs) as (chunks & Hs & _).
  destruct (sample_points_cpu_run m cs n w chunks Hne Hs)
    as (e & w' & Hrun & (samples & Hv & _) & _).
  destruct (np_vstack_pairs_raises samples) as (msg & Hmsg).
  assert (e = ValueError msg) by congruence. subst e.
  destruct (emits_sample_points_cpu (loaded m cs) n w) as (evs & Ht & HP & _).
  rewrite Hrun in Ht. exists msg, w', evs. auto.
Qed.


Lemma submits_of_tasks (mesh : Trimesh) (c : Z) (k : nat) :
  length (filter is_submit (concat (repeat [Submit c; MeshSample mesh c] k))) = k.
Proof.
  induction k as [|k IH]; [reflexivity|].
  cbn [repeat concat app filter is_submit length]. now rewrite IH.
Qed.

Lemma submits_of_pool_events (mesh : Trimesh) (n t : Z) :
  length (filter is_submit (pool_events mesh n t))
  = (Z.to_nat t + (if (0 <? n mod t)%Z then 1 else 0))%nat.
Proof.
  unfold pool_events. cbn [app filter is_submit].
  rewrite !filter_app, !length_app, submits_of_tasks.
  destruct (0 <? n mod t); cbn [filter is_submit length]; lia.
Qed.

End Orchestrators.



(** X10. On a well-formed mesh with faces, for a positive thread count
    and a positive [num_samples], [PointSampler.sample_points] returns
    exactly [num_samples] points on its CPU branch, and on its GPU branch
    when [torch.multinomial] accepts the face probabilities of the mesh;
    it submits no worker task on the GPU branch, and [num_threads] tasks
    plus one for a positive remainder on the CPU branch. *)
Theorem point_sampler_sample_points_total {E : Externals} (HS : ExternalsSpec E)
  (mesh : Trimesh) (n t : Z) (use_gpu : bool) (w : World) (probs : list f32) :
  valid_mesh mesh -> faces mesh <> [] -> 0 < t -> 0 < n ->
  face_probs_of (map float32 (vertices mesh)) (faces mesh) = Ok probs ->
  accepts probs ->
  exists pts w' evs,
    PointSampler.sample_points mesh n use_gpu t w = (Ok pts, w') /\
    num_points pts = n /\
    trace w' = trace w ++ evs /\
    length (filter is_submit evs)
    = (if use_gpu && cuda w then 0
       else Z.to_nat t + (if (0 <? n mod t)%Z then 1 else 0))%nat.
Proof.
  intros Hv Hne Ht Hn Hp Hacc. destruct w as [g dev tr].
  assert (Hcpu : forall w1 : World,
    exists pts w' ,
      PointSampler._sample_points_on_cpu mesh n t w1 = (Ok pts, w') /\
      num_points pts = n /\ trace w' = trace w1 ++ pool_events mesh n t).
  { intros w1.
    destruct (sample_points_on_cpu_run mesh n t w1 HS Hv Hne Ht)
      as (pts & w' & Hrun & Htr & _ & _ & Hlen).
    exists pts, w'. split; [exact Hrun|]. split; [apply Hlen; lia|exact Htr]. }
  destruct use_gpu; [destruct dev|].
  - set (w1 := mkWorld g true (tr ++ [CudaIsAvailable true])).
    pose proof (sample_points_on_gpu_run HS mesh n w1 probs Hv Hn Hp Hacc) as Hrun.
    destruct (returns_emits _ _ _ _ (emits_sample_points_on_gpu mesh n) Hrun)
      as (pts & w' & Heq & (Hlen & _) & evs & Htr & HP).
    exists pts, w', (CudaIsAvailable true :: evs).
    split; [exact Heq|]. split; [exact Hlen|].
    split; [rewrite Htr; unfold w1; cbn [trace]; now rewrite <- app_assoc|].
    cbn [filter is_submit cuda andb].
    now rewrite (filter_none _ _ evs HP device_op_not_submit).
  - set (w1 := mkWorld g false (tr ++ [CudaIsAvailable false])).
    destruct (Hcpu w1) as (pts & w' & Hrun & Hlen & Htr).
    exists pts, w', (CudaIsAvailable false :: pool_events mesh n t).
    split; [exact Hrun|]. split; [exact Hlen|].
    split; [rewrite Htr; unfold w1; cbn [trace]; now rewrite <- app_assoc|].
    cbn [filter is_submit cuda andb]. apply submits_of_pool_events.
  - destruct (Hcpu (mkWorld g dev tr)) as (pts & w' & Hrun & Hlen & Htr).
    exists pts, w', (pool_events mesh n t).
    split; [exact Hrun|]. split; [exact Hlen|]. split; [exact Htr|].
    cbn [andb]. apply submits_of_pool_events.
Qed.

Lemma point_sampler_sample_points_total_witness :
  ExternalsSpec fixed_externals /\
  valid_mesh square /\ faces square <> [] /\ 0 < 2 /\ 0 < 5 /\
  exists probs,
    face_probs_of (map float32 (vertices square)) (faces square) = Ok probs /\
    @accepts fixed_externals probs /\
    exists pts w' evs,
      PointSampler.sample_points square 5 true 2 (start true) = (Ok pts, w') /\
      num_points pts = 5 /\
      trace w' = trace (start true) ++ evs /\
      length (filter is_submit evs) = 0%nat.
Proof.
  split; [exact fixed_externals_spec|]. split; [exact valid_mesh_square|].
  split; [discriminate|]. split; [lia|]. split; [lia|].
  assert (HF : Forall (valid_face (map (@float32 fixed_externals) (vertices square)))
                 (faces square)).
  { apply Forall_forall. intros f Hf. apply valid_face_map.
    revert f Hf. apply Forall_forall, valid_mesh_square. }
  destruct (@face_probs_ok fixed_externals _ _ HF) as (probs & Hp & Hl).
  assert (Hacc : @accepts fixed_externals probs).
  { apply fixed_externals_accept. intros ->. discriminate. }
  exists probs. split; [exact Hp|]. split; [exact Hacc|].
  apply (point_sampler_sample_points_total fixed_externals_spec square 5 2 true
           (start true) probs valid_mesh_square ltac:(discriminate) ltac:(lia)
           ltac:(lia) Hp Hacc).
Defined.

(** * The command surface *)

Section SplitLemmas.

Variable int_math_sqrt : Z -> option Z.

Lemma in_range2 (start stop i : Z) :
  In i (range2 start stop) <-> start <= i < stop.
Proof.
  unfold range2. rewrite in_map_iff. split.
  - intros (k & <- & Hk). apply in_seq in Hk. lia.
  - intros Hi. exists (Z.to_nat (i - start)). split; [lia|].
    apply in_seq. lia.
Qed.

(** With the exact root as the bound, the search finds a divisor
    exactly for the products of two factors that are at least 2. *)
Lemma small_divisor_spec (v : Z) :
  0 < v ->
  existsb (fun i => v mod i =? 0) (range2 2 (Z.sqrt v + 1)) = true <->
  exists a b, 2 <= a /\ 2 <= b /\ v = a * b.
Proof.
  intros Hv. rewrite existsb_exists. split.
  - intros (i & Hin & Hdiv). apply in_range2 in Hin.
    apply Z.eqb_eq in Hdiv.
    assert (Hi : i * i <= v) by (apply Z.sqrt_le_square; lia).
    exists i, (v / i). split; [lia|].
    pose proof (Z.div_mod v i ltac:(lia)) as Hdm. rewrite Hdiv in Hdm.
    split; [|lia]. nia.
  - intros (a & b & Ha & Hb & ->).
    assert (Hmin : exists c d, 2 <= c /\ c <= d /\ a * b = c * d).
    { destruct (Z.le_gt_cases a b); [exists a, b|exists b, a]; lia. }
    destruct Hmin as (c & d & Hc & Hcd & Heq). rewrite Heq.
    exists c. split.
    + apply in_range2. split; [lia|].
      assert (c <= Z.sqrt (c * d)) by (apply Z.sqrt_le_square; nia). lia.
    + apply Z.eqb_eq. rewrite Z.mul_comm. apply Z.mod_mul. lia.
Qed.

Lemma validate_split_square (v : Z) :
  0 < v -> Z.sqrt v ^ 2 = v -> validate_split int_math_sqrt v = Accepted v.
Proof.
  intros Hv Hsq. unfold validate_split.
  destruct (Z.leb_spec v 0); [lia|].
  rewrite Hsq, Z.eqb_refl. reflexivity.
Qed.

Lemma validate_split_exact (v : Z) :
  0 < v -> int_math_sqrt v = Some (Z.sqrt v) ->
  (validate_split int_math_sqrt v = Accepted v <->
   v = 1 \/ exists a b, 2 <= a /\ 2 <= b /\ v = a * b) /\
  validate_split int_math_sqrt v <> OverflowError.
Proof.
  intros Hv Hroot. pose proof (small_divisor_spec v Hv) as Hdiv.
  unfold validate_split, has_small_divisor. rewrite Hroot.
  destruct (Z.leb_spec v 0); [lia|].
  destruct (Z.eqb_spec (Z.sqrt v ^ 2) v) as [Hsq|Hsq]; cbn [negb option_map].
  - split; [|discriminate]. split; [|reflexivity]. intros _.
    assert (Hs : 0 <= Z.sqrt v) by apply Z.sqrt_nonneg.
    destruct (Z.eq_dec (Z.sqrt v) 1) as [H1|H1].
    + left. rewrite <- Hsq, H1. reflexivity.
    + right. exists (Z.sqrt v), (Z.sqrt v). nia.
  - destruct (existsb _ _) eqn:Hd; cbn [negb].
    + split; [|discriminate]. split; [|reflexivity].
      intros _. right. now apply Hdiv.
    + split; [|discriminate]. split; [discriminate|].
      intros [->|Hex]; [now contradiction Hsq|].
      apply Hdiv in Hex. discriminate.
Qed.

End SplitLemmas.

(** X11. [validate_split] rejects zero and the negatives, and returns
    only its argument.  It accepts every perfect square without calling
    [math.sqrt], and on any other value for which [math.sqrt] overflows
    the [OverflowError] escapes.  Where [int(math.sqrt(n))] is the exact
    integer root -- as it is below [2 ^ 52], where ints convert to floats
    exactly and the correctly rounded root cannot reach the next integer
    -- it accepts exactly the values that can form a grid in its sense: 1
    and every product of two factors that are both at least 2, rejecting
    the primes. *)
Theorem validate_split_accepts (int_math_sqrt : Z -> option Z) (v : Z) :
  (forall n, 0 < n < 2 ^ 52 -> int_math_sqrt n = Some (Z.sqrt n)) ->
  (v <= 0 -> exists msg, validate_split int_math_sqrt v = ArgumentTypeError msg) /\
  (forall r, validate_split int_math_sqrt v = Accepted r -> r = v) /\
  (0 < v -> Z.sqrt v ^ 2 = v -> validate_split int_math_sqrt v = Accepted v) /\
  (0 < v -> Z.sqrt v ^ 2 <> v -> int_math_sqrt v = None ->
   validate_split int_math_sqrt v = OverflowError) /\
  (v < 2 ^ 52 ->
   (validate_split int_math_sqrt v = Accepted v <->
    v = 1 \/ exists a b, 2 <= a /\ 2 <= b /\ v = a * b) /\
   validate_split int_math_sqrt v <> OverflowError).
Proof.
  intros Hexact. split; [|split; [|split; [|split]]].
  - intros Hv. unfold validate_split.
    destruct (Z.leb_spec v 0); [eauto|lia].
  - intros r. unfold validate_split. destruct (v <=? 0); [discriminate|].
    destruct (if negb _ then _ else _) as [[|]|]; try discriminate.
    now intros [= <-].
  - apply validate_split_square.
  - intros Hv Hsq Hnone. unfold validate_split, has_small_divisor.
    destruct (Z.leb_spec v 0); [lia|].
    destruct (Z.eqb_spec (Z.sqrt v ^ 2) v); [contradiction|].
    cbn [negb]. rewrite Hnone. reflexivity.
  - intros Hlt. destruct (Z.le_gt_cases v 0) as [Hle|Hpos].
    + unfold validate_split. destruct (Z.leb_spec v 0); [|lia].
      split; [|discriminate]. split; [discriminate|].
      intros [->|(a & b & Ha & Hb & ->)]; [lia|nia].
    + apply validate_split_exact; [lia|]. apply Hexact. lia.
Qed.

Lemma validate_split_accepts_witness :
  (forall n, 0 < n < 2 ^ 52 -> exact_root n = Some (Z.sqrt n)) /\
  validate_split exact_root 12 = Accepted 12 /\
  (exists msg, validate_split exact_root 7 = ArgumentTypeError msg) /\
  validate_split exact_root (2 ^ 60) = Accepted (2 ^ 60) /\
  validate_split exact_root (2 ^ 60 + 1) = OverflowError.
Proof.
  assert (Hroot : forall n, 0 < n < 2 ^ 52 -> exact_root n = Some (Z.sqrt n)).
  { intros n Hn. unfold exact_root.
    destruct (Z.ltb_spec n (2 ^ 52)); [reflexivity|lia]. }
  split; [exact Hroot|].
  destruct (validate_split_accepts exact_root 12 Hroot) as (_ & _ & _ & _ & H12).
  destruct (validate_split_accepts exact_root 7 Hroot) as (_ & _ & _ & _ & H7).
  destruct (validate_split_accepts exact_root (2 ^ 60) Hroot) as (_ & _ & Hsq & _).
  destruct (validate_split_accepts exact_root (2 ^ 60 + 1) Hroot)
    as (_ & _ & _ & Hov & _).
  split; [|split; [|split]].
  - apply H12; [lia|]. right. exists 3, 4. lia.
  - vm_compute. eauto.
  - apply Hsq; [lia|reflexivity].
  - apply Hov; [lia|vm_compute; discriminate|reflexivity].
Defined.

(** X12. Arguments that pass [validate_arguments] have a positive
    resolution, number of samples and chunk size and at least one thread.
    That is enough for [calculate_bounding_box] on any mesh, and for
    [PointSampler.sample_points] without GPU to return exactly
    [num_samples] points on a well-formed mesh with faces.  It is not
    enough for the handler's [sample_points] without GPU, which fails
    with the [ValueError] of [np.vstack]. *)
Theorem validated_arguments_suffice {E : Externals} (HS : ExternalsSpec E)
  (args : Main.Args) (m : Trimesh) (w : World) :
  Main.validate_arguments args = Ok tt -> valid_mesh m -> faces m <> [] ->
  (0 < Main.max_resolution args /\ 0 < Main.num_samples args /\
   1 <= Main.num_threads args /\ 0 < Main.chunk_size args) /\
  calculate_bounding_box (loaded m (Main.chunk_size args))
  = Ok (box_of (vertices m)) /\
  (exists pts w',
     PointSampler.sample_points m (Main.num_samples args) false
       (Main.num_threads args) w = (Ok pts, w') /\
     num_points pts = Main.num_samples args) /\
  (exists msg w',
     sample_points (loaded m (Main.chunk_size args)) (Main.num_samples args) false w
     = (Raise (ValueError msg), w')).
Proof.
  intros Hval Hvalid Hne. unfold Main.validate_arguments in Hval.
  destruct (Z.leb_spec (Main.max_resolution args) 0); [discriminate|].
  destruct (Z.leb_spec (Main.num_samples args) 0); [discriminate|].
  destruct (Z.ltb_spec (Main.num_threads args) 1); [discriminate|].
  destruct (Z.leb_spec (Main.chunk_size args) 0); [discriminate|].
  split; [lia|]. split; [now apply calculate_bounding_box_loaded|]. split.
  - destruct (sample_points_on_cpu_run m (Main.num_samples args)
                (Main.num_threads args) w HS Hvalid Hne ltac:(lia))
      as (pts & w' & Hrun & _ & _ & _ & Hlen).
    exists pts, w'. split; [exact Hrun|]. apply Hlen. lia.
  - destruct (cpu_pass_summary m (Main.chunk_size args) (Main.num_samples args) w)
      as (msg & w' & evs & Hrun & _); [assumption|lia|].
    exists msg, w'. exact Hrun.
Qed.

Lemma validated_arguments_suffice_witness :
  ExternalsSpec fixed_externals /\
  Main.validate_arguments (Main.mkArgs 256 10000 4 1000000) = Ok tt /\
  valid_mesh square /\ faces square <> [] /\
  (0 < 256 /\ 0 < 10000 /\ 1 <= 4 /\ 0 < 1000000) /\
  calculate_bounding_box (loaded square 1000000) = Ok (box_of (vertices square)) /\
  (exists pts w',
     PointSampler.sample_points square 10000 false 4 (start false) = (Ok pts, w') /\
     num_points pts = 10000) /\
  (exists msg w',
     sample_points (loaded square 1000000) 10000 false (start false)
     = (Raise (ValueError msg), w')).
Proof.
  split; [exact fixed_externals_spec|]. split; [reflexivity|].
  split; [exact valid_mesh_square|]. split; [discriminate|].
  apply (validated_arguments_suffice fixed_externals_spec
           (Main.mkArgs 256 10000 4 1000000) square (start false));
    [reflexivity|exact valid_mesh_square|discriminate].
Defined.

(** * Scenes *)

Section SceneLemmas.

Variable Transform : Type.
Variable transform_points : list Vertex -> Transform -> list Vertex.
Hypothesis transform_points_length :
  forall vs T, length (transform_points vs T) = length vs.

Local Abbreviation moved := (transformed Transform transform_points).
Local Abbreviation appended := (shifted_faces Transform transform_points).
Local Abbreviation pass := (process_node Transform transform_points).

Lemma process_nodes (nodes : list (SceneNode Transform)) (st : SceneLocals) :
  fold_left pass nodes st
  = {| all_vertices := all_vertices st ++ map moved nodes;
       all_faces := all_faces st ++ appended (running_total st) nodes;
       running_total :=
         (running_total st + length (concat (map moved nodes)))%nat |}.
Proof.
  revert st. induction nodes as [|nd nodes IH]; intros st.
  - cbn. rewrite !app_nil_r, Nat.add_0_r. now destruct st.
  - cbn [fold_left]. rewrite IH. unfold process_node.
    cbn [all_vertices all_faces running_total map shifted_faces concat].
    rewrite <- !app_assoc, length_app. cbn [app]. f_equal. lia.
Qed.

Lemma shifted_faces_length (off : nat) (nodes : list (SceneNode Transform)) :
  length (concat (appended off nodes))
  = length (concat (map (fun nd => faces (node_mesh nd)) nodes)).
Proof.
  revert off. induction nodes as [|nd nodes IH]; intros off; [reflexivity|].
  cbn [shifted_faces map concat]. now rewrite !length_app, length_map, IH.
Qed.

Lemma index_shift {A} (P xs S : list A) (i : nat) :
  (i < length xs)%nat ->
  index (P ++ xs ++ S) (i + length P) = index xs i.
Proof.
  intros Hi. unfold index.
  rewrite nth_error_app2 by lia.
  replace (i + length P - length P)%nat with i by lia.
  now rewrite nth_error_app1 by lia.
Qed.

Lemma corners_shift (P xs S : list Vertex) (f : Face) :
  valid_face xs f ->
  corners (P ++ xs ++ S) (shift_face (length P) f) = corners xs f /\
  valid_face (P ++ xs ++ S) (shift_face (length P) f).
Proof.
  destruct f as [[a b] c]. intros (Ha & Hb & Hc).
  unfold corners. cbn [shift_face].
  rewrite !index_shift by assumption. split; [reflexivity|].
  cbn [valid_face]. rewrite !length_app. lia.
Qed.

(** Behind a prefix [P] of vertices, the appended faces stay in bounds
    and keep the corners they had in their own node. *)
Lemma shifted_faces_sound (nodes : list (SceneNode Transform)) :
  Forall (fun nd => valid_mesh (node_mesh nd)) nodes ->
  forall P : list Vertex,
    let V := P ++ concat (map moved nodes) in
    Forall (valid_face V) (concat (appended (length P) nodes)) /\
    (forall nd f, In nd nodes -> In f (faces (node_mesh nd)) ->
       exists f',
         In f' (concat (appended (length P) nodes)) /\
         corners V f' = corners (moved nd) f).
Proof.
  induction 1 as [|nd nodes Hnd _ IH]; intros P V.
  - split; [constructor|]. intros nd f [].
  - subst V. cbn [map concat shifted_faces].
    specialize (IH (P ++ moved nd)).
    rewrite length_app, <- app_assoc in IH. cbn zeta in IH.
    destruct IH as [IHv IHc].
    assert (Hown : forall f, In f (faces (node_mesh nd)) ->
      valid_face (moved nd) f).
    { intros f Hf. unfold valid_mesh in Hnd. rewrite Forall_forall in Hnd.
      specialize (Hnd f Hf). destruct f as [[a b] c].
      unfold transformed. cbn [valid_face] in *.
      now rewrite transform_points_length. }
    split.
    + apply Forall_app. split; [|exact IHv].
      apply Forall_forall. intros f' Hf'. apply in_map_iff in Hf' as (f & <- & Hf).
      now apply corners_shift, Hown.
    + intros nd' f [<-|Hin] Hf.
      * exists (shift_face (length P) f). split.
        -- apply in_or_app. left. now apply in_map.
        -- now apply corners_shift, Hown.
      * destruct (IHc nd' f Hin Hf) as (f' & Hf' & Hc).
        exists f'. split; [apply in_or_app; now right|exact Hc].
Qed.

(** What [_process_scene] builds from a scene with at least one node. *)
Lemma process_scene_ok (nodes : list (SceneNode Transform)) :
  nodes <> [] ->
  _process_scene Transform transform_points nodes
  = Ok {| vertices := concat (map moved nodes);
          faces := concat (appended 0 nodes) |}.
Proof.
  intros Hne. unfold _process_scene. rewrite process_nodes.
  cbn [all_vertices all_faces running_total app].
  destruct nodes as [|nd nodes]; [congruence|]. reflexivity.
Qed.

End SceneLemmas.

(** X13. [_process_scene] fails in [np.vstack] on a scene without
    geometry nodes.  On a scene with nodes, given a transform that keeps
    one output row per input row, it builds buffers whose lengths are the
    sums of the nodes' vertex and face counts; if every node's mesh has
    its face indices in bounds, so has the result, and every face of
    every node is present in it with the same three corners it has among
    the node's own transformed vertices. *)
Theorem process_scene_concatenates (Transform : Type)
  (transform_points : list Vertex -> Transform -> list Vertex)
  (nodes : list (SceneNode Transform)) :
  (forall vs T, length (transform_points vs T) = length vs) ->
  nodes <> [] ->
  Forall (fun nd => valid_mesh (node_mesh nd)) nodes ->
  _process_scene Transform transform_points []
  = Raise (ValueError "need at least one array to concatenate") /\
  exists mesh,
    _process_scene Transform transform_points nodes = Ok mesh /\
    length (vertices mesh)
    = length (concat (map (fun nd => vertices (node_mesh nd)) nodes)) /\
    length (faces mesh)
    = length (concat (map (fun nd => faces (node_mesh nd)) nodes)) /\
    valid_mesh mesh /\
    (forall nd f, In nd nodes -> In f (faces (node_mesh nd)) ->
       exists f',
         In f' (faces mesh) /\
         corners (vertices mesh) f'
         = corners (transform_points (vertices (node_mesh nd)) (node_transform nd)) f).
Proof.
  intros Hlen Hne Hvalid. split; [reflexivity|].
  eexists. split; [now apply process_scene_ok|]. cbn [vertices faces].
  destruct (shifted_faces_sound Transform transform_points Hlen nodes Hvalid [])
    as [Hv Hc].
  cbn [app length] in Hv, Hc. repeat split.
  - clear - Hlen. induction nodes as [|nd nodes IH]; [reflexivity|].
    cbn [map concat]. rewrite !length_app, IH. f_equal. apply Hlen.
  - apply shifted_faces_length.
  - exact Hv.
  - exact Hc.
Qed.

Lemma process_scene_concatenates_witness :
  (forall (vs : list Vertex) (T : unit), length ((fun vs _ => vs) vs T) = length vs) /\
  [mkSceneNode tt square; mkSceneNode tt square] <> [] /\
  Forall (fun nd : SceneNode unit => valid_mesh (node_mesh nd))
    [mkSceneNode tt square; mkSceneNode tt square] /\
  exists mesh,
    _process_scene unit (fun vs _ => vs) [mkSceneNode tt square; mkSceneNode tt square]
    = Ok mesh /\
    length (vertices mesh) = 8%nat /\ length (faces mesh) = 4%nat /\
    valid_mesh mesh.
Proof.
  split; [reflexivity|]. split; [discriminate|].
  split; [repeat constructor|].
  destruct (process_scene_concatenates unit (fun vs _ => vs)
              [mkSceneNode tt square; mkSceneNode tt square])
    as (_ & mesh & Hrun & Hv & Hf & Hvalid & _);
    [reflexivity|discriminate|repeat constructor|].
  exists mesh. auto.
Defined.
